(** * img2bag: a shallow embedding of the image-directory to ROS 2 bag converter

    The development follows the three source files of the package:
    [utils.py] (frame identifiers, timestamp decomposition, resizing,
    calibration matrices), [img2bag_converter.py] (channel registration,
    message synthesis, the per-directory loop, [convert]) and [__main__.py]
    (the restricted string types of the command line, the pairing of
    directories with topics, the parsing of the image size, [main]).

    Python exceptions are values of [exn] carried by the [result] monad.
    Python [float] arithmetic is an interface, [PyFloat], with two
    instances: exact rational arithmetic ([Exact], on which the general
    theorems are proved) and IEEE 754 binary64 ([Binary64], the kernel's
    primitive floats, on which the code is evaluated at concrete inputs). *)

From Stdlib Require Import ZArith QArith Qround Qabs Lia Lqa Bool List.
From Stdlib Require Import Ascii String DecimalString DecimalNat.
From Stdlib Require Import Permutation Sorted.
From Stdlib Require Import PrimFloat SpecFloat FloatOps.
Import ListNotations.

Local Open Scope string_scope.
Local Open Scope list_scope.
Local Open Scope Z_scope.

(** ** Exceptions *)

(** The exception classes that the program raises or catches, and an
    exception: its class and its message ([str(e)]). *)
Inductive exn_class : Type :=
| OSError
| SyntaxError
| UserWarning
| ValueError
| ZeroDivisionError
| OverflowError
| KeyboardInterrupt.

Definition exn_class_eq_dec (a b : exn_class) : {a = b} + {a <> b}.
Proof. decide equality. Defined.

Record exn : Type := Exn { exn_cls : exn_class; exn_msg : string }.

Inductive result (A : Type) : Type :=
| Ok (a : A)
| Raise (e : exn).
Arguments Ok {A} a.
Arguments Raise {A} e.

Definition bind {A B : Type} (m : result A) (k : A -> result B) : result B :=
  match m with
  | Ok a => k a
  | Raise e => Raise e
  end.

Declare Scope py_scope.
Delimit Scope py_scope with py.
Notation "x <- m ;; k" := (bind m (fun x => k))
  (at level 61, m at next level, right associativity) : py_scope.
Notation "' p <- m ;; k" := (bind m (fun x => let p := x in k))
  (at level 61, p pattern, m at next level, right associativity) : py_scope.
Local Open Scope py_scope.

Definition division_by_zero : exn := Exn ZeroDivisionError "division by zero".

(** ** Python numbers *)

(** What the program asks of [float]: conversion from [int], [+], [*],
    [/] (which raises on a zero divisor), [%], [abs], truncation by
    [int(...)], true division of two [int]s, and the literals [1e9] and
    [1e-9]. *)
Class PyFloat (F : Type) : Type := {
  of_int : Z -> F;
  fadd : F -> F -> F;
  fmul : F -> F -> F;
  fdiv : F -> F -> result F;
  fmod : F -> F -> result F;
  fabs : F -> F;
  to_int : F -> result Z;
  int_truediv : Z -> Z -> result F;
  lit_1e9 : F;
  lit_1em9 : F
}.

(** *** Exact rational arithmetic *)

Module Exact.

Definition is_zero (x : Q) : bool := Qnum x =? 0.

Definition div (x y : Q) : result Q :=
  if is_zero y then Raise division_by_zero else Ok (x / y)%Q.

(** [x % y]: the remainder has the sign of the divisor. *)
Definition mod_ (x y : Q) : result Q :=
  if is_zero y then Raise division_by_zero
  else Ok (x - inject_Z (Qfloor (x / y)) * y)%Q.

(** [int(x)] truncates towards zero. *)
Definition trunc (x : Q) : Z := Z.quot (Qnum x) (Z.pos (Qden x)).

Definition truediv (a b : Z) : result Q :=
  if b =? 0 then Raise division_by_zero else Ok (inject_Z a / inject_Z b)%Q.

#[global] Instance float : PyFloat Q := {
  of_int := inject_Z;
  fadd := Qplus;
  fmul := Qmult;
  fdiv := div;
  fmod := mod_;
  fabs := Qabs;
  to_int := fun x => Ok (trunc x);
  int_truediv := truediv;
  lit_1e9 := inject_Z 1000000000;
  lit_1em9 := (1 # 1000000000)%Q
}.

End Exact.

(** *** IEEE 754 binary64 *)

Module Binary64.

Definition prec : Z := 53.
Definition emax : Z := 1024.

(** [float(n)], rounded to nearest even. *)
Definition of_Z (n : Z) : PrimFloat.float :=
  SF2Prim (binary_normalize prec emax n 0 false).

Definition is_zero (x : PrimFloat.float) : bool :=
  match Prim2SF x with
  | S754_zero _ => true
  | _ => false
  end.

Definition sign (x : PrimFloat.float) : bool :=
  match Prim2SF x with
  | S754_zero s | S754_infinity s | S754_finite s _ _ => s
  | S754_nan => false
  end.

Definition div (x y : PrimFloat.float) : result PrimFloat.float :=
  if is_zero y then Raise division_by_zero else Ok (PrimFloat.div x y).

(** [int(x)]: truncation towards zero; infinities and NaN raise. *)
Definition trunc (x : PrimFloat.float) : result Z :=
  match Prim2SF x with
  | S754_zero _ => Ok 0
  | S754_finite s m e =>
      let a := Z.shiftl (Z.pos m) e in
      Ok (if s then - a else a)
  | S754_infinity _ => Raise (Exn OverflowError "cannot convert float infinity to integer")
  | S754_nan => Raise (Exn ValueError "cannot convert float NaN to integer")
  end.

(** C's [fmod] on two finite non-zero magnitudes: exact, computed on the
    common exponent. *)
Definition fmod_mag (mx : positive) (ex : Z) (my : positive) (ey : Z) : Z * Z :=
  let e := Z.min ex ey in
  (Z.rem (Z.shiftl (Z.pos mx) (ex - e)) (Z.shiftl (Z.pos my) (ey - e)), e).

(** CPython's [float_rem]: [fmod], then the result is moved to the sign
    of the divisor. *)
Definition mod_ (x y : PrimFloat.float) : result PrimFloat.float :=
  let zero_like_y := if sign y then PrimFloat.opp PrimFloat.zero else PrimFloat.zero in
  match Prim2SF y with
  | S754_zero _ => Raise division_by_zero
  | S754_nan => Ok PrimFloat.nan
  | S754_infinity sy =>
      match Prim2SF x with
      | S754_zero _ => Ok zero_like_y
      | S754_finite sx _ _ => Ok (if Bool.eqb sx sy then x else y)
      | _ => Ok PrimFloat.nan
      end
  | S754_finite sy my ey =>
      match Prim2SF x with
      | S754_zero _ => Ok zero_like_y
      | S754_finite sx mx ex =>
          let '(r, e) := fmod_mag mx ex my ey in
          if r =? 0 then Ok zero_like_y
          else
            let m := SF2Prim (binary_normalize prec emax (if sx then - r else r) e sx) in
            Ok (if Bool.eqb sx sy then m else PrimFloat.add m y)
      | _ => Ok PrimFloat.nan
      end
  end.

Definition SF_of_Z (n : Z) : spec_float :=
  match n with
  | Z0 => S754_zero false
  | Z.pos p => S754_finite false p 0
  | Z.neg p => S754_finite true p 0
  end.

(** [a / b] on two [int]s: the correctly rounded quotient. *)
Definition truediv (a b : Z) : result PrimFloat.float :=
  if b =? 0 then Raise division_by_zero
  else Ok (SF2Prim (SFdiv prec emax (SF_of_Z a) (SF_of_Z b))).

#[global] Instance float : PyFloat PrimFloat.float := {
  of_int := of_Z;
  fadd := PrimFloat.add;
  fmul := PrimFloat.mul;
  fdiv := div;
  fmod := mod_;
  fabs := PrimFloat.abs;
  to_int := trunc;
  int_truediv := truediv;
  lit_1e9 := 1e9%float;
  lit_1em9 := 0x1.12e0be826d695p-30%float
}.

End Binary64.

(** ** Python strings *)

Definition slash : ascii := "/"%char.

(** [s.lstrip(c)] *)
Fixpoint lstrip (c : ascii) (s : string) : string :=
  match s with
  | String a s' => if Ascii.eqb a c then lstrip c s' else s
  | EmptyString => EmptyString
  end.

(** [s.rstrip(c)] *)
Fixpoint rstrip (c : ascii) (s : string) : string :=
  match s with
  | String a s' =>
      let r := rstrip c s' in
      if Ascii.eqb a c && String.eqb r EmptyString then EmptyString else String a r
  | EmptyString => EmptyString
  end.

(** [s.strip(c)] *)
Definition strip (c : ascii) (s : string) : string := rstrip c (lstrip c s).

(** [s.split(c)]: never empty; an empty string gives one empty field. *)
Fixpoint split (c : ascii) (s : string) : list string :=
  match s with
  | EmptyString => [EmptyString]
  | String a s' =>
      if Ascii.eqb a c then EmptyString :: split c s'
      else
        match split c s' with
        | field :: fields => String a field :: fields
        | [] => [String a EmptyString]
        end
  end.

(** [c.join(fields)] *)
Definition join (c : ascii) (fields : list string) : string :=
  String.concat (String c EmptyString) fields.

(** [s.replace(a, b)] on single characters. *)
Fixpoint replace (a b : ascii) (s : string) : string :=
  match s with
  | String x s' => String (if Ascii.eqb x a then b else x) (replace a b s')
  | EmptyString => EmptyString
  end.

Definition startswith (c : ascii) (s : string) : bool :=
  match s with
  | String a _ => Ascii.eqb a c
  | EmptyString => false
  end.

Definition len (s : string) : Z := Z.of_nat (String.length s).

(** [c in s] *)
Fixpoint has_char (c : ascii) (s : string) : bool :=
  match s with
  | String a s' => Ascii.eqb a c || has_char c s'
  | EmptyString => false
  end.

(** ** pathlib.PurePath, POSIX flavour *)

(** A pure path is a root (empty, one slash or two slashes) and its
    parts.  Empty segments and single-dot segments are dropped when a path
    is parsed. *)
Record PurePath : Type := { root : string; parts : list string }.

(** The root of an argument: exactly two leading slashes are kept, any
    other number of them is one. *)
Definition splitroot (part : string) : string * string :=
  if startswith slash part then
    let stripped := lstrip slash part in
    if len part - len stripped =? 2 then ("//", stripped) else ("/", stripped)
  else (EmptyString, part).

Definition kept_segment (x : string) : bool :=
  negb (String.eqb x EmptyString) && negb (String.eqb x ".").

Definition segments (rel : string) : list string :=
  filter kept_segment (split slash rel).

(** One more argument of [PurePath(...)]: an empty argument is ignored, a
    rooted argument replaces what came before, a relative one is appended. *)
Definition joinpath (p : PurePath) (arg : string) : PurePath :=
  if String.eqb arg EmptyString then p
  else
    let '(r, rel) := splitroot arg in
    if String.eqb r EmptyString then {| root := root p; parts := parts p ++ segments rel |}
    else {| root := r; parts := segments rel |}.

(** [PurePath(arg1, ..., argn)] *)
Definition PurePath_of (args : list string) : PurePath :=
  fold_left joinpath args {| root := EmptyString; parts := [] |}.

(** [str(path)] *)
Definition PurePath_str (p : PurePath) : string :=
  let s := (root p ++ join slash (parts p))%string in
  if String.eqb s EmptyString then "." else s.

(** ** utils.py *)

(** [get_frame_id_from_topic] *)
Definition get_frame_id_from_topic (topic : string) : string :=
  let topic_parts := removelast (split slash (strip slash topic)) in
  match topic_parts with
  | [] => PurePath_str (PurePath_of (split slash (strip slash topic)))
  | _ :: _ => PurePath_str (PurePath_of topic_parts)
  end.

(** A decoded [PIL.Image]: its mode, its size and the bytes of
    [tobytes()]. *)
Record PILImage : Type := {
  mode : string;
  pil_width : Z;
  pil_height : Z;
  tobytes : list Z
}.

Definition size (img : PILImage) : Z * Z := (pil_width img, pil_height img).

(** [Image.resize(size)]: the mode is kept, the result has the requested
    size; [resample] stands for the resampling of the pixel data.  A
    requested dimension below 1 is refused with [ValueError]. *)
Definition PIL_resize (resample : PILImage -> Z * Z -> list Z)
    (image : PILImage) (img_size : Z * Z) : result PILImage :=
  if (fst img_size <? 1) || (snd img_size <? 1)
  then Raise (Exn ValueError "height and width must be > 0")
  else Ok {| mode := mode image;
             pil_width := fst img_size;
             pil_height := snd img_size;
             tobytes := resample image img_size |}.

Section Utils.

Context {F : Type} `{PyFloat F}.

(** [split_unix_timestamp]: [int(timestamp)] and
    [int((timestamp * 1e9) % 1e9)]. *)
Definition split_unix_timestamp (timestamp : F) : result (Z * Z) :=
  sec <- to_int timestamp ;;
  m <- fmod (fmul timestamp lit_1e9) lit_1e9 ;;
  nsec <- to_int m ;;
  Ok (sec, nsec).

(** [resize_image]: the size handed to [Image.resize]. *)
Definition resize_target (image : PILImage) (size : Z * Z) : result (Z * Z) :=
  if fst size <=? 0 then
    q <- int_truediv (pil_width image * snd size) (pil_height image) ;;
    w <- to_int q ;;
    Ok (w, snd size)
  else if snd size <=? 0 then
    q <- int_truediv (pil_height image * fst size) (pil_width image) ;;
    h <- to_int q ;;
    Ok (fst size, h)
  else Ok size.

Definition resize_image (resample : PILImage -> Z * Z -> list Z)
    (image : PILImage) (size : Z * Z) : result PILImage :=
  img_size <- resize_target image size ;;
  PIL_resize resample image img_size.

(** numpy arrays of [float64], as rows of entries. *)
Definition zeros (n : nat) : list F := repeat (of_int 0) n.

Definition identity (n : nat) : list (list F) :=
  map (fun i => map (fun j => of_int (if Nat.eqb i j then 1 else 0)) (seq 0 n))
      (seq 0 n).

Fixpoint set_nth {A : Type} (n : nat) (x : A) (l : list A) : list A :=
  match l, n with
  | [], _ => []
  | _ :: l', O => x :: l'
  | a :: l', S n' => a :: set_nth n' x l'
  end.

(** [M[i, [j1, j2]] = [x1, x2]] *)
Definition set_row_entries (i j1 j2 : nat) (x1 x2 : F) (M : list (list F))
  : list (list F) :=
  set_nth i (set_nth j2 x2 (set_nth j1 x1 (nth i M []))) M.

(** [np.column_stack((M, col))] *)
Definition column_stack (M : list (list F)) (col : list F) : list (list F) :=
  map (fun rc => fst rc ++ [snd rc]) (combine M col).

Definition flatten (M : list (list F)) : list F := List.concat M.

(** [get_flatten_calibration_matrices]: distortion, intrinsic, rotation
    and projection, the last three flattened row by row. *)
Definition get_flatten_calibration_matrices (imgsz : Z * Z)
  : result (list F * list F * list F * list F) :=
  let d := zeros 5 in
  aspect_ratio <- int_truediv (snd imgsz) (fst imgsz) ;;
  let K := identity 3 in
  cx <- int_truediv (fst imgsz) 2 ;;
  let K := set_row_entries 0 0 2 (of_int (fst imgsz)) cx K in
  fy <- fdiv (of_int (snd imgsz)) aspect_ratio ;;
  cy <- int_truediv (snd imgsz) 2 ;;
  let K := set_row_entries 1 1 2 fy cy K in
  let R := identity 3 in
  let P := column_stack K (zeros 3) in
  Ok (d, flatten K, flatten R, flatten P).

End Utils.

(** ** natsort *)

(** [natsorted(seq, key, alg)] is [sorted(seq, key = natsort_keygen(key, alg))].
    natsort is a third-party library: its key for
    [alg = ns.PATH | ns.IGNORECASE | ns.REAL] is written here after the
    library's documented algorithm, on ASCII strings.  [ns.REAL] is
    [ns.FLOAT | ns.SIGNED]: a number is an optional sign, a decimal numeral
    with an optional fraction, and an optional exponent.  Numbers are kept
    as exact rationals, and text chunks stay text. *)

Inductive chunk : Type :=
| Txt (s : string)
| Num (x : Q).

Definition is_digit (a : ascii) : bool :=
  let n := N_of_ascii a in ((48 <=? n) && (n <=? 57))%N.

Definition digit_value (a : ascii) : Z := Z.of_N (N_of_ascii a) - 48.

(** The longest prefix of digits: its value, its length, and the rest. *)
Fixpoint span_digits (s : string) (acc : Z) (n : nat) : Z * nat * string :=
  match s with
  | String a s' =>
      if is_digit a then span_digits s' (10 * acc + digit_value a) (S n)
      else (acc, n, s)
  | EmptyString => (acc, n, s)
  end.

Definition is_sign (a : ascii) : bool :=
  Ascii.eqb a "-" || Ascii.eqb a "+".

Definition pow10 (e : Z) : Q :=
  if 0 <=? e then inject_Z (10 ^ e) else (/ inject_Z (10 ^ (- e)))%Q.

(** [\d+\.?\d*|\.\d+] at the head of [s]: the value, the number of
    characters matched, and the rest. *)
Definition match_mantissa (s : string) : option (Q * nat * string) :=
  let '(i, ni, s1) := span_digits s 0 O in
  match ni with
  | S _ =>
      match s1 with
      | String "." s2 =>
          let '(f, nf, s3) := span_digits s2 0 O in
          Some ((inject_Z i + inject_Z f * pow10 (- Z.of_nat nf))%Q, (ni + 1 + nf)%nat, s3)
      | _ => Some (inject_Z i, ni, s1)
      end
  | O =>
      match s with
      | String "." s2 =>
          let '(f, nf, s3) := span_digits s2 0 O in
          match nf with
          | S _ => Some ((inject_Z f * pow10 (- Z.of_nat nf))%Q, S nf, s3)
          | O => None
          end
      | _ => None
      end
  end.

(** [(?:[eE][-+]?\d+)?] at the head of [s]: the exponent and the number of
    characters matched (none when no exponent follows). *)
Definition match_exponent (s : string) : Z * nat :=
  match s with
  | String a s1 =>
      if Ascii.eqb a "e" || Ascii.eqb a "E" then
        match s1 with
        | String b s2 =>
            if is_sign b then
              let '(e, ne, _) := span_digits s2 0 O in
              match ne with
              | S _ => (if Ascii.eqb b "-" then - e else e, (2 + ne)%nat)
              | O => (0, O)
              end
            else
              let '(e, ne, _) := span_digits s1 0 O in
              match ne with
              | S _ => (e, S ne)
              | O => (0, O)
              end
        | EmptyString => (0, O)
        end
      else (0, O)
  | EmptyString => (0, O)
  end.

(** [[-+]?(?:\d+\.?\d*|\.\d+)(?:[eE][-+]?\d+)?] at the head of [s]: the
    value of the number and the number of characters matched. *)
Definition match_number (s : string) : option (Q * nat) :=
  let signed (neg : bool) (skip : nat) (body : string) :=
    match match_mantissa body with
    | Some (m, n, rest) =>
        let '(e, ne) := match_exponent rest in
        let v := (m * pow10 e)%Q in
        Some (if neg then (- v)%Q else v, (skip + n + ne)%nat)
    | None => None
    end in
  match s with
  | String a s' =>
      if is_sign a then signed (Ascii.eqb a "-") 1%nat s' else signed false O s
  | EmptyString => None
  end.

Definition flush (txt : string) : list chunk :=
  match txt with
  | EmptyString => []
  | _ => [Txt txt]
  end.

(** The split of a string on the number pattern, empty pieces removed,
    numbers converted.  [skip] counts the characters of the number being
    passed over, [txt] is the text piece read so far. *)
Fixpoint split_numbers (s : string) (skip : nat) (txt : string) : list chunk :=
  match s with
  | EmptyString => flush txt
  | String a s' =>
      match skip with
      | S k => split_numbers s' k txt
      | O =>
          match match_number s with
          | Some (x, n) => flush txt ++ Num x :: split_numbers s' (Nat.pred n) EmptyString
          | None => split_numbers s' O (txt ++ String a EmptyString)
          end
      end
  end.

(** [sep_inserter]: an empty text before a leading number and between
    two adjacent numbers. *)
Fixpoint sep_between (first : chunk) (rest : list chunk) : list chunk :=
  match rest with
  | [] => []
  | second :: rest' =>
      match first, second with
      | Num _, Num _ => Txt EmptyString :: second :: sep_between second rest'
      | _, _ => second :: sep_between second rest'
      end
  end.

Definition sep_inserter (l : list chunk) : list chunk :=
  match l with
  | [] => []
  | Num x :: rest => Txt EmptyString :: Num x :: sep_between (Num x) rest
  | first :: rest => first :: sep_between first rest
  end.

(** [str.casefold] on ASCII. *)
Definition casefold_char (a : ascii) : ascii :=
  let n := N_of_ascii a in
  if ((65 <=? n) && (n <=? 90))%N then ascii_of_N (n + 32) else a.

Fixpoint casefold (s : string) : string :=
  match s with
  | String a s' => String (casefold_char a) (casefold s')
  | EmptyString => EmptyString
  end.

(** The key of one string without [ns.PATH]. *)
Definition parse_string (x : string) : list chunk :=
  sep_inserter (split_numbers (casefold x) O EmptyString).

Definition endswith_dot (s : string) : bool :=
  match rstrip "." s with
  | r => negb (String.eqb r s)
  end.

(** [PurePath(name).suffixes] *)
Definition suffixes (name : string) : list string :=
  if endswith_dot name then []
  else map (fun x => String "." x) (tl (split "." (lstrip "." name))).

(** [re.match(r"\.\d", suffix)] *)
Definition d_match (suffix : string) : bool :=
  match suffix with
  | String "." (String a _) => is_digit a
  | _ => false
  end.

(** The extensions split off a base name, last one first: at most two,
    none longer than five characters, none starting with a digit. *)
Fixpoint take_suffixes (i : nat) (reversed : list string) : list string :=
  match reversed with
  | [] => []
  | suffix :: rest =>
      if d_match suffix || (1 <? i)%nat || (5 <? String.length suffix)%nat then []
      else suffix :: take_suffixes (S i) rest
  end.

(** [PurePath.parts]: the root, when there is one, then the segments. *)
Definition path_parts (p : PurePath) : list string :=
  match root p with
  | EmptyString => parts p
  | r => r :: parts p
  end.

(** [path_splitter]: the components of a path, the extensions of the last
    one split off. *)
Definition path_splitter (s : string) : list string :=
  let p := PurePath_of [s] in
  let '(dirs, base) :=
    match path_parts p with
    | [] => ([], PurePath_str p)
    | ps => (removelast ps, last ps EmptyString)
    end in
  let sfx := rev (take_suffixes O (rev (suffixes base))) in
  let suffix := String.concat EmptyString sfx in
  let base := substring 0 (String.length base - String.length suffix) base in
  filter (fun x => negb (String.eqb x EmptyString)) (dirs ++ [base] ++ sfx).

(** The key of one string with [ns.PATH]. *)
Definition parse_path (x : string) : list (list chunk) :=
  map parse_string (path_splitter x).

(** Python's ordering of the keys: text by code points, numbers by value,
    tuples lexicographically.  Chunks alternate between text and number
    from a text on, so a text is never compared with a number. *)
Definition chunk_compare (a b : chunk) : comparison :=
  match a, b with
  | Txt s, Txt t => String.compare s t
  | Num x, Num y => Qcompare x y
  | Txt _, Num _ => Lt
  | Num _, Txt _ => Gt
  end.

Fixpoint tuple_compare {A : Type} (cmp : A -> A -> comparison) (l1 l2 : list A)
  : comparison :=
  match l1, l2 with
  | [], [] => Eq
  | [], _ :: _ => Lt
  | _ :: _, [] => Gt
  | a :: l1', b :: l2' =>
      match cmp a b with
      | Eq => tuple_compare cmp l1' l2'
      | c => c
      end
  end.

Definition path_key_compare : list (list chunk) -> list (list chunk) -> comparison :=
  tuple_compare (tuple_compare chunk_compare).

(** [sorted]: a stable sort that asks only [x < y]. *)
Fixpoint insert_sorted {A : Type} (lt : A -> A -> bool) (x : A) (l : list A) : list A :=
  match l with
  | [] => [x]
  | y :: l' => if lt y x then y :: insert_sorted lt x l' else x :: l
  end.

Definition sorted {A : Type} (lt : A -> A -> bool) (l : list A) : list A :=
  fold_right (insert_sorted lt) [] l.

(** ** The world of a run *)

(** [enums.StorageID]: the storage backends named by the converter. *)
Inductive StorageID : Type := MCAP | SQLITE3.

Record TopicMetadata : Type := {
  tm_name : string;
  tm_type : string;
  tm_serialization_format : string
}.

Record Time : Type := { sec : Z; nanosec : Z }.

Record Header : Type := { stamp : Time; frame_id : string }.

(** [sensor_msgs.msg.Image] *)
Record Image : Type := {
  img_header : Header;
  img_height : Z;
  img_width : Z;
  encoding : string;
  is_bigendian : bool;
  step : Z;
  data : list Z
}.

(** [sensor_msgs.msg.CameraInfo] *)
Record CameraInfo (F : Type) : Type := {
  ci_header : Header;
  ci_height : Z;
  ci_width : Z;
  distortion_model : string;
  ci_d : list F;
  ci_k : list F;
  ci_r : list F;
  ci_p : list F
}.
Arguments ci_header {F} _.
Arguments ci_height {F} _.
Arguments ci_width {F} _.
Arguments distortion_model {F} _.
Arguments ci_d {F} _.
Arguments ci_k {F} _.
Arguments ci_r {F} _.
Arguments ci_p {F} _.

Inductive Message (F : Type) : Type :=
| ImageMsg (m : Image)
| CameraInfoMsg (m : CameraInfo F).
Arguments ImageMsg {F} m.
Arguments CameraInfoMsg {F} m.

(** [rosbag2_py.SequentialWriter]: the container it writes, with the
    channels created and the records appended, each in order. *)
Record SequentialWriter (F : Type) : Type := {
  uri : string;
  storage_id : StorageID;
  channels : list TopicMetadata;
  records : list (string * Message F * Z)
}.
Arguments uri {F} _.
Arguments storage_id {F} _.
Arguments channels {F} _.
Arguments records {F} _.

(** What the program reads: the directory listings in the order the file
    system gives them, which entries are regular files, what decoding a
    file gives, the resampling done by [Image.resize], and the working
    directory. *)
Record FileSystem : Type := {
  iterdir : string -> result (list string);
  rglob : string -> result (list string);
  is_file : string -> bool;
  PIL_open : string -> result PILImage;
  PIL_resample : PILImage -> Z * Z -> list Z;
  cwd : string
}.

(** What a run does: the container it has created, whether the writer
    is still held, what it prints, what it writes on the error stream, and
    the file-system paths it reads. *)
Record World (F : Type) : Type := {
  rosbag_writer : option (SequentialWriter F);
  writer_held : bool;
  console : list string;
  stderr : list string;
  fs_reads : list string
}.
Arguments rosbag_writer {F} _.
Arguments writer_held {F} _.
Arguments console {F} _.
Arguments stderr {F} _.
Arguments fs_reads {F} _.


(** A command changes the world and returns or raises. *)
Definition M (F A : Type) : Type := World F -> World F * result A.

Definition ret {F A : Type} (a : A) : M F A := fun w => (w, Ok a).

Definition lift {F A : Type} (r : result A) : M F A := fun w => (w, r).

Definition bindM {F A B : Type} (m : M F A) (k : A -> M F B) : M F B :=
  fun w =>
    match m w with
    | (w', Ok a) => k a w'
    | (w', Raise e) => (w', Raise e)
    end.

Notation "x <~ m ;; k" := (bindM m (fun x => k))
  (at level 61, m at next level, right associativity) : py_scope.
Notation "m ;;; k" := (bindM m (fun _ => k))
  (at level 61, right associativity) : py_scope.

Section Effects.

Context {F : Type}.

(** [rich.print] *)
Definition rprint (line : string) : M F unit :=
  fun w => ({| rosbag_writer := rosbag_writer w;
               writer_held := writer_held w;
               console := console w ++ [line];
               stderr := stderr w;
               fs_reads := fs_reads w |}, Ok tt).

(** [sys.stderr.write] *)
Definition stderr_write (text : string) : M F unit :=
  fun w => ({| rosbag_writer := rosbag_writer w;
               writer_held := writer_held w;
               console := console w;
               stderr := stderr w ++ [text];
               fs_reads := fs_reads w |}, Ok tt).

Definition fs_read (path : string) : M F unit :=
  fun w => ({| rosbag_writer := rosbag_writer w;
               writer_held := writer_held w;
               console := console w;
               stderr := stderr w;
               fs_reads := fs_reads w ++ [path] |}, Ok tt).

Definition set_writer (wr : option (SequentialWriter F)) (held : bool) : M F unit :=
  fun w => ({| rosbag_writer := wr;
               writer_held := held;
               console := console w;
               stderr := stderr w;
               fs_reads := fs_reads w |}, Ok tt).

Definition no_writer : exn := Exn ValueError "no writer".

Definition update_writer (f : SequentialWriter F -> SequentialWriter F) : M F unit :=
  fun w =>
    match rosbag_writer w with
    | Some wr => set_writer (Some (f wr)) (writer_held w) w
    | None => (w, Raise no_writer)
    end.

(** [SequentialWriter.create_topic]: a channel is created once per
    name; a name that exists is left as it is. *)
Definition add_channel (meta : TopicMetadata) (l : list TopicMetadata)
  : list TopicMetadata :=
  if existsb (fun t => String.eqb (tm_name t) (tm_name meta)) l then l
  else l ++ [meta].

Definition create_topic (meta : TopicMetadata) : M F unit :=
  update_writer (fun wr =>
    {| uri := uri wr; storage_id := storage_id wr;
       channels := add_channel meta (channels wr); records := records wr |}).

(** [SequentialWriter.write] *)
Definition write (topic : string) (msg : Message F) (timestamp : Z) : M F unit :=
  update_writer (fun wr =>
    {| uri := uri wr; storage_id := storage_id wr;
       channels := channels wr;
       records := records wr ++ [(topic, msg, timestamp)] |}).

End Effects.

(** ** img2bag_converter.py *)

Record Img2BagConverter (F : Type) : Type := {
  image_topic_pairs : list (string * string);
  verbose : bool;
  camera_info_topic : string;
  imgsz : option (Z * Z);
  start_timestamp : F;
  rate : F;
  recursive_dirs : bool;
  conv_storage_id : StorageID
}.
Arguments image_topic_pairs {F} _.
Arguments verbose {F} _.
Arguments camera_info_topic {F} _.
Arguments imgsz {F} _.
Arguments start_timestamp {F} _.
Arguments rate {F} _.
Arguments recursive_dirs {F} _.
Arguments conv_storage_id {F} _.

Definition newline : string := String (ascii_of_nat 10) EmptyString.

Definition escape : string := String (ascii_of_nat 27) EmptyString.

Definition image_encoding_map : list (string * string) :=
  [("RGB", "rgb8"); ("RGBA", "rgba8"); ("L", "mono8")].

(** [key in d] and [d.get(key, default)] on a dictionary written as its
    items. *)
Definition dict_in (key : string) (d : list (string * string)) : bool :=
  existsb (fun kv => String.eqb (fst kv) key) d.

Definition dict_get (key : string) (default : string) (d : list (string * string))
  : string :=
  match find (fun kv => String.eqb (fst kv) key) d with
  | Some kv => snd kv
  | None => default
  end.

(** [Image.getbands()]: PIL's table of band names by mode. *)
Definition mode_bands : list (string * list string) :=
  [("1", ["1"]); ("L", ["L"]); ("I", ["I"]); ("F", ["F"]); ("P", ["P"]);
   ("RGB", ["R"; "G"; "B"]); ("RGBX", ["R"; "G"; "B"; "X"]);
   ("RGBA", ["R"; "G"; "B"; "A"]); ("CMYK", ["C"; "M"; "Y"; "K"]);
   ("YCbCr", ["Y"; "Cb"; "Cr"]); ("LAB", ["L"; "A"; "B"]);
   ("HSV", ["H"; "S"; "V"]); ("RGBa", ["R"; "G"; "B"; "a"]);
   ("LA", ["L"; "A"]); ("La", ["L"; "a"]); ("PA", ["P"; "A"]);
   ("I;16", ["I"])].

Definition getbands (mode : string) : list string :=
  match find (fun kv => String.eqb (fst kv) mode) mode_bands with
  | Some kv => snd kv
  | None => []
  end.

Section Converter.

Context {F : Type} `{PyFloat F}.
Variable fs : FileSystem.

(** [Img2BagConverter.__init__]; [now] is the value of [time()]. *)
Definition Img2BagConverter_init (pairs : list (string * string)) (now : F)
  : Img2BagConverter F :=
  {| image_topic_pairs := pairs;
     verbose := false;
     camera_info_topic := "camera_info";
     imgsz := None;
     start_timestamp := now;
     rate := of_int 1;
     recursive_dirs := false;
     conv_storage_id := MCAP |}.

(** The property setters used by [main]. *)
Definition set_image_size (value : option (Z * Z)) (c : Img2BagConverter F) :=
  {| image_topic_pairs := image_topic_pairs c; verbose := verbose c;
     camera_info_topic := camera_info_topic c; imgsz := value;
     start_timestamp := start_timestamp c; rate := rate c;
     recursive_dirs := recursive_dirs c; conv_storage_id := conv_storage_id c |}.

Definition set_start_timestamp (value : F) (c : Img2BagConverter F) :=
  {| image_topic_pairs := image_topic_pairs c; verbose := verbose c;
     camera_info_topic := camera_info_topic c; imgsz := imgsz c;
     start_timestamp := value; rate := rate c;
     recursive_dirs := recursive_dirs c; conv_storage_id := conv_storage_id c |}.

(** The rate setter stores [abs(value)]. *)
Definition set_rate (value : F) (c : Img2BagConverter F) :=
  {| image_topic_pairs := image_topic_pairs c; verbose := verbose c;
     camera_info_topic := camera_info_topic c; imgsz := imgsz c;
     start_timestamp := start_timestamp c; rate := fabs value;
     recursive_dirs := recursive_dirs c; conv_storage_id := conv_storage_id c |}.

Definition set_camera_info_topic (value : string) (c : Img2BagConverter F) :=
  {| image_topic_pairs := image_topic_pairs c; verbose := verbose c;
     camera_info_topic := value; imgsz := imgsz c;
     start_timestamp := start_timestamp c; rate := rate c;
     recursive_dirs := recursive_dirs c; conv_storage_id := conv_storage_id c |}.

Definition set_recursive_dirs (value : bool) (c : Img2BagConverter F) :=
  {| image_topic_pairs := image_topic_pairs c; verbose := verbose c;
     camera_info_topic := camera_info_topic c; imgsz := imgsz c;
     start_timestamp := start_timestamp c; rate := rate c;
     recursive_dirs := value; conv_storage_id := conv_storage_id c |}.

Definition set_storage_id (value : StorageID) (c : Img2BagConverter F) :=
  {| image_topic_pairs := image_topic_pairs c; verbose := verbose c;
     camera_info_topic := camera_info_topic c; imgsz := imgsz c;
     start_timestamp := start_timestamp c; rate := rate c;
     recursive_dirs := recursive_dirs c; conv_storage_id := value |}.

Variable self : Img2BagConverter F.

(** The names under which [_register_topics] registers the two
    channels of a topic. *)
Definition camera_info_topic_name (frame_id : string) : string :=
  PurePath_str (PurePath_of [String slash frame_id; camera_info_topic self]).

Definition image_topic_name (img_topic : string) : string :=
  String slash (lstrip slash img_topic).

(** [_register_topics] *)
Definition _register_topics (frame_id img_topic : string) : M F (string * string) :=
  create_topic {| tm_name := image_topic_name img_topic;
                  tm_type := "sensor_msgs/msg/Image";
                  tm_serialization_format := "cdr" |} ;;;
  create_topic {| tm_name := camera_info_topic_name frame_id;
                  tm_type := "sensor_msgs/msg/CameraInfo";
                  tm_serialization_format := "cdr" |} ;;;
  ret (image_topic_name img_topic, camera_info_topic_name frame_id).

Definition unsupported_mode (img : PILImage) (file_path : string) : exn :=
  Exn UserWarning
    ("Unsupported image mode '" ++ mode img ++ "' for file '" ++ file_path
     ++ "'. Skipping...")%string.

(** The body of [_create_image_camera_info_messages]: the image that the
    [with] block works on, then the two messages.  What opening and
    decoding the file raises is raised where the file is opened. *)
Definition load_image (file_path : string) : result PILImage :=
  img_org <- PIL_open fs file_path ;;
  match imgsz self with
  | Some sz => resize_image (PIL_resample fs) img_org sz
  | None => Ok img_org
  end.

Definition create_messages (file_path : string) (header : Header)
  : result (Image * CameraInfo F) :=
  img <- load_image file_path ;;
  if negb (dict_in (mode img) image_encoding_map)
  then Raise (unsupported_mode img file_path)
  else
    let img_msg :=
      {| img_header := header;
         img_height := pil_height img;
         img_width := pil_width img;
         encoding := dict_get (mode img) "rgb8" image_encoding_map;
         is_bigendian := false;
         step := pil_width img * Z.of_nat (List.length (getbands (mode img)));
         data := tobytes img |} in
    dkrp <- get_flatten_calibration_matrices (size img) ;;
    let '(d, k, r, p) := dkrp in
    let camera_info_msg :=
      {| ci_header := header;
         ci_height := pil_height img;
         ci_width := pil_width img;
         distortion_model := "plumb_bob";
         ci_d := d; ci_k := k; ci_r := r; ci_p := p |} in
    Ok (img_msg, camera_info_msg).

(** [_create_image_camera_info_messages] *)
Definition _create_image_camera_info_messages (file_path : string) (header : Header)
  : M F (Image * CameraInfo F) :=
  fs_read file_path ;;;
  lift (create_messages file_path header).

(** The classes caught by the loop over the files. *)
Definition caught_classes : list exn_class := [OSError; SyntaxError; UserWarning].

Definition is_caught (classes : list exn_class) (e : exn) : bool :=
  existsb (fun c => if exn_class_eq_dec c (exn_cls e) then true else false) classes.

(** [try: body / except classes as e: handler] followed by the rest of
    the block. *)
Definition try_except {A B : Type} (body : M F A) (classes : list exn_class)
    (handler : exn -> M F B) (rest : A -> M F B) : M F B :=
  fun w =>
    match body w with
    | (w', Ok a) => rest a w'
    | (w', Raise e) =>
        if is_caught classes e
        then handler e w'
        else (w', Raise e)
    end.

(** [s.absolute()] and [s.name] of a path. *)
Definition absolute (s : string) : string := PurePath_str (PurePath_of [cwd fs; s]).

Definition name (s : string) : string := last (parts (PurePath_of [s])) EmptyString.

(** The key handed to [natsorted], after natsort has parsed both of its
    components. *)
Definition natsort_key (s : string) : list (list chunk) * list (list chunk) :=
  (parse_path (replace " " "_" (absolute s)), parse_path (name s)).

Definition key_compare (k1 k2 : list (list chunk) * list (list chunk)) : comparison :=
  match path_key_compare (fst k1) (fst k2) with
  | Eq => path_key_compare (snd k1) (snd k2)
  | c => c
  end.

Definition key_lt (a b : string) : bool :=
  match key_compare (natsort_key a) (natsort_key b) with
  | Lt => true
  | _ => false
  end.

Definition natsorted (files : list string) : list string := sorted key_lt files.

(** The files of a directory, in the order in which they are
    converted. *)
Definition image_files (entries : list string) : list string :=
  natsorted (filter (is_file fs) entries).

(** The cursor after a file has been written. *)
Definition advance (cursor : Z * Z) : result (Z * Z) :=
  period <- fdiv (of_int 1) (rate self) ;;
  split_unix_timestamp
    (fadd (fadd (of_int (fst cursor)) period) (fmul (of_int (snd cursor)) lit_1em9)).

Definition warning (e : exn) : string :=
  ("[yellow]WARNING: '" ++ exn_msg e ++ "'[/yellow]")%string.

(** The loop of [_convert_image_to_topic] over the sorted files. *)
Fixpoint convert_files (frame_id image_topic camera_info_topic : string)
    (files : list string) (cursor : Z * Z) : M F unit :=
  match files with
  | [] => ret tt
  | file_path :: files' =>
      (if verbose self then rprint ("Parsing: '" ++ file_path ++ "'")%string else ret tt) ;;;
      let header := {| stamp := {| sec := fst cursor; nanosec := snd cursor |};
                       frame_id := frame_id |} in
      try_except (_create_image_camera_info_messages file_path header)
        caught_classes
        (fun e =>
           rprint (warning e) ;;;
           convert_files frame_id image_topic camera_info_topic files' cursor)
        (fun msgs =>
           timestamp <~ lift (to_int (fadd (fmul (of_int (fst cursor)) lit_1e9)
                                           (of_int (snd cursor)))) ;;
           write image_topic (ImageMsg (fst msgs)) timestamp ;;;
           write camera_info_topic (CameraInfoMsg (snd msgs)) timestamp ;;;
           cursor' <~ lift (advance cursor) ;;
           convert_files frame_id image_topic camera_info_topic files' cursor')
  end.

(** [_convert_image_to_topic] *)
Definition _convert_image_to_topic (image_dir topic : string) : M F unit :=
  let frame_id := get_frame_id_from_topic topic in
  names <~ _register_topics frame_id topic ;;
  cursor <~ lift (split_unix_timestamp (start_timestamp self)) ;;
  fs_read image_dir ;;;
  entries <~ lift ((if recursive_dirs self then rglob fs else iterdir fs) image_dir) ;;
  convert_files frame_id (fst names) (snd names) (image_files entries) cursor.

Fixpoint for_each {A : Type} (body : A -> M F unit) (l : list A) : M F unit :=
  match l with
  | [] => ret tt
  | a :: l' => body a ;;; for_each body l'
  end.

(** [convert] *)
Definition convert (output : string) : M F unit :=
  set_writer (Some {| uri := output; storage_id := conv_storage_id self;
                      channels := []; records := [] |}) true ;;;
  for_each (fun pair => _convert_image_to_topic (fst pair) (snd pair))
           (image_topic_pairs self) ;;;
  rprint (newline ++ "[bold green]Saved ROS bag file to '" ++ output
          ++ "'.[/bold green]")%string ;;;
  fun w => set_writer (rosbag_writer w) false w.

End Converter.

(** ** __main__.py *)

(** *** The restricted string types of the command line

    A restricted string is accepted when [re.match] finds the pattern at
    its start; [$] is the end of the string or the place before a final
    newline.  The patterns are read on ASCII strings. *)

(** What [$] leaves to match: the string without its final newline. *)
Fixpoint chomp (s : string) : string :=
  match s with
  | String a EmptyString => if Ascii.eqb a (ascii_of_nat 10) then EmptyString else s
  | String a s' => String a (chomp s')
  | EmptyString => EmptyString
  end.

Fixpoint forall_chars (p : ascii -> bool) (s : string) : bool :=
  match s with
  | String a s' => p a && forall_chars p s'
  | EmptyString => true
  end.

Definition nonempty (s : string) : bool := negb (String.eqb s EmptyString).

Definition is_letter (a : ascii) : bool :=
  let n := N_of_ascii a in
  (((65 <=? n) && (n <=? 90)) || ((97 <=? n) && (n <=? 122)))%N.

(** [^[A-Za-z/_]+$] *)
Definition CameraInfoTopicType (v : string) : bool :=
  nonempty (chomp v)
  && forall_chars (fun a => is_letter a || Ascii.eqb a "/" || Ascii.eqb a "_") (chomp v).

Definition is_size_separator (a : ascii) : bool :=
  Ascii.eqb a "x" || Ascii.eqb a ",".

(** The digits at the head of a string, and what follows them. *)
Fixpoint span (p : ascii -> bool) (s : string) : string * string :=
  match s with
  | String a s' =>
      if p a then let '(h, t) := span p s' in (String a h, t) else (EmptyString, s)
  | EmptyString => (EmptyString, EmptyString)
  end.

(** [^(?!0$)(?!0[x,])\d+(?:[x,](?!0$)\d+)?$] *)
Definition ImageSizeType (v : string) : bool :=
  let body := chomp v in
  let '(width, rest) := span is_digit body in
  negb (String.eqb body "0")
  && negb (match v with
           | String "0" (String a _) => is_size_separator a
           | _ => false
           end)
  && nonempty width
  && match rest with
     | EmptyString => true
     | String a height =>
         is_size_separator a
         && negb (String.eqb height "0")
         && nonempty height
         && forall_chars is_digit height
     end.

(** *** Parsing *)

Definition is_space (a : ascii) : bool :=
  let n := N_of_ascii a in (((9 <=? n) && (n <=? 13)) || (n =? 32))%N.

Fixpoint lstrip_spaces (s : string) : string :=
  match s with
  | String a s' => if is_space a then lstrip_spaces s' else s
  | EmptyString => EmptyString
  end.

Fixpoint rstrip_spaces (s : string) : string :=
  match s with
  | String a s' =>
      let r := rstrip_spaces s' in
      if is_space a && String.eqb r EmptyString then EmptyString else String a r
  | EmptyString => EmptyString
  end.

(** [int(s)] on a decimal numeral: surrounding white space is ignored, a
    sign is allowed (digit grouping by underscores is not read). *)
Definition py_int (s : string) : result Z :=
  let t := rstrip_spaces (lstrip_spaces s) in
  let '(neg, digits) :=
    match t with
    | String a t' => if is_sign a then (Ascii.eqb a "-", t') else (false, t)
    | EmptyString => (false, t)
    end in
  let '(v, n, rest) := span_digits digits 0 O in
  match n, rest with
  | S _, EmptyString => Ok (if neg then - v else v)
  | _, _ => Raise (Exn ValueError ("invalid literal for int() with base 10: '" ++ s ++ "'"))
  end.

(** [re.split(r'[x,]', s)] *)
Fixpoint re_split (sep : ascii -> bool) (s : string) : list string :=
  match s with
  | EmptyString => [EmptyString]
  | String a s' =>
      if sep a then EmptyString :: re_split sep s'
      else
        match re_split sep s' with
        | field :: fields => String a field :: fields
        | [] => [String a EmptyString]
        end
  end.

Fixpoint map_result {A B : Type} (f : A -> result B) (l : list A) : result (list B) :=
  match l with
  | [] => Ok []
  | a :: l' => b <- f a ;; bs <- map_result f l' ;; Ok (b :: bs)
  end.

(** [_parse_image_size] *)
Definition _parse_image_size (image_size : option string) : result (option (Z * Z)) :=
  match image_size with
  | None | Some EmptyString => Ok None
  | Some image_size =>
      size <- map_result py_int (re_split is_size_separator image_size) ;;
      match size with
      | [w] => Ok (Some (w, 0))
      | w :: h :: _ => Ok (Some (w, h))
      | [] => Ok None
      end
  end.

Definition string_of_nat (n : nat) : string := NilZero.string_of_uint (Nat.to_uint n).

(** [_parse_image_topic_pairs] *)
Definition _parse_image_topic_pairs (directories topics : list string)
  : result (list (string * string)) :=
  if negb (List.length directories =? List.length topics)%nat then
    Raise (Exn ValueError
             ("Number of directories and topics must be equal, but got "
              ++ string_of_nat (List.length directories) ++ " directories and "
              ++ string_of_nat (List.length topics) ++ " topics."))
  else Ok (combine directories topics).

(** The namespace returned by [_parse_arguments]. *)
Record Namespace (F : Type) : Type := {
  directories : list string;
  topics : list string;
  args_camera_info_topic : string;
  image_size : option string;
  timestamp : Z;
  args_rate : F;
  args_recursive_dirs : bool;
  output : string;
  format : StorageID
}.
Arguments directories {F} _.
Arguments topics {F} _.
Arguments args_camera_info_topic {F} _.
Arguments image_size {F} _.
Arguments timestamp {F} _.
Arguments args_rate {F} _.
Arguments args_recursive_dirs {F} _.
Arguments output {F} _.
Arguments format {F} _.

Section Main.

Context {F : Type} `{PyFloat F}.
Variable fs : FileSystem.

(** What [main] does inside its [try], once the arguments are parsed;
    [now] is the value of [time()] when the converter is built. *)
Definition main_body (now : F) (args : Namespace F) : M F unit :=
  pairs <~ lift (_parse_image_topic_pairs (directories args) (topics args)) ;;
  let converter := Img2BagConverter_init pairs now in
  imgsz <~ lift (_parse_image_size (image_size args)) ;;
  let converter := set_image_size imgsz converter in
  let converter := set_start_timestamp (of_int (timestamp args)) converter in
  let converter := set_rate (args_rate args) converter in
  let converter := set_camera_info_topic (args_camera_info_topic args) converter in
  let converter := set_recursive_dirs (args_recursive_dirs args) converter in
  let converter := set_storage_id (format args) converter in
  convert fs converter (output args).

(** [main]: the world after the run and the exit code. *)
Definition main (now : F) (args : Namespace F) (w : World F) : World F * Z :=
  match main_body now args w with
  | (w', Ok _) => (w', 0)
  | (w', Raise e) =>
      match exn_cls e with
      | KeyboardInterrupt => (fst (stderr_write newline w'), 1)
      | _ =>
          (fst (stderr_write ("Error:" ++ escape ++ "[91m " ++ escape ++ "[0m"
                              ++ exn_msg e ++ newline) w'), 1)
      end
  end.

End Main.

(** ** Statements of the specification

    The definitions below follow the words of the specification; the
    theorems compare them with the code. *)

(** The frame identifier as the specification words it: the stripped
    topic without its last segment, or the stripped topic itself when no
    parent segment remains. *)
Definition spec_frame_id (topic : string) : string :=
  let stripped := strip slash topic in
  match removelast (split slash stripped) with
  | [] => stripped
  | parents => join slash parents
  end.

(** A string all of whose segments are kept by a path: none is empty,
    none is a single dot. *)
Definition plain_path (s : string) : Prop :=
  Forall (fun x => kept_segment x = true) (split slash s).

(** A relative path prints as its parts joined, or as a dot when it has
    none. *)
Definition str_of_parts (ks : list string) : string :=
  match ks with
  | [] => "."
  | _ :: _ => join slash ks
  end.

(** The segments from which the frame identifier is made. *)
Definition frame_segments (topic : string) : list string :=
  let segs := split slash (strip slash topic) in
  match removelast segs with
  | [] => segs
  | parents => parents
  end.

(** A string none of whose segments is empty: it has no doubled, leading
    or trailing slash. *)
Definition no_empty_segment (s : string) : Prop :=
  Forall (fun x => x <> EmptyString) (split slash s).

(** A rooted name with no doubled and no trailing slash. *)
Definition tidy_rooted (c : string) : Prop :=
  match c with
  | String a c' => a = slash /\ (c' = EmptyString \/ no_empty_segment c')
  | EmptyString => False
  end.

(** ** Sample inputs *)

(** A converter for two directories, with a given camera-info topic. *)
Definition sample_converter (c : string) : Img2BagConverter Q :=
  set_camera_info_topic c
    (Img2BagConverter_init [("/data/left", "/cam/left"); ("/data/right", "/cam/right")]
       0%Q).

(** A world in which the writer for [/out/bag] has just been opened. *)
Definition opened_world {F : Type} : World F :=
  {| rosbag_writer := Some {| uri := "/out/bag"; storage_id := MCAP;
                              channels := []; records := [] |};
     writer_held := true; console := []; stderr := []; fs_reads := [] |}.

(** ** The loop over the files *)

Definition epoch_header : Header :=
  {| stamp := {| sec := 0; nanosec := 0 |}; frame_id := EmptyString |}.



(** The world after a file has been skipped with the exception [e]: the
    file has been read and the warning printed. *)
Definition after_skip {F : Type} (self : Img2BagConverter F) (file_path : string)
    (e : exn) (w : World F) : World F :=
  {| rosbag_writer := rosbag_writer w;
     writer_held := writer_held w;
     console := (console w
                 ++ (if verbose self then [("Parsing: '" ++ file_path ++ "'")%string] else []))
                ++ [warning e];
     stderr := stderr w;
     fs_reads := fs_reads w ++ [file_path] |}.

(** Two worlds with the same container, the same writer and the same
    error stream. *)
Definition same_output {F : Type} (w v : World F) : Prop :=
  rosbag_writer w = rosbag_writer v
  /\ writer_held w = writer_held v
  /\ stderr w = stderr v.

(** The header of a message. *)
Definition header_at (frame_id : string) (cursor : Z * Z) : Header :=
  {| stamp := {| sec := fst cursor; nanosec := snd cursor |}; frame_id := frame_id |}.

(** The world after the two messages of a file have been written at the
    time [ts] into the container [wr]. *)
Definition after_write {F : Type} (self : Img2BagConverter F) (file_path : string)
    (image_topic camera_info_topic : string) (msgs : Image * CameraInfo F) (ts : Z)
    (wr : SequentialWriter F) (w : World F) : World F :=
  {| rosbag_writer :=
       Some {| uri := uri wr; storage_id := storage_id wr; channels := channels wr;
               records := (records wr ++ [(image_topic, ImageMsg (fst msgs), ts)])
                          ++ [(camera_info_topic, CameraInfoMsg (snd msgs), ts)] |};
     writer_held := writer_held w;
     console := console w
                ++ (if verbose self then [("Parsing: '" ++ file_path ++ "'")%string] else []);
     stderr := stderr w;
     fs_reads := fs_reads w ++ [file_path] |}.

(** A file system in which every directory holds the same entries: four
    files that decode to 1920 by 1080 RGB images, one that is not an
    image, one that decodes to a CMYK image, and a sub-directory. *)
Definition sample_image (m : string) : PILImage :=
  {| mode := m; pil_width := 1920; pil_height := 1080; tobytes := [] |}.

Definition sample_fs : FileSystem :=
  {| iterdir := fun d =>
       Ok (map (fun n => (d ++ "/" ++ n)%string)
             ["img2.png"; "notes.txt"; "img10.png"; "print.jpg"; "img1.png"; "thumbs";
              "img3.png"]);
     rglob := fun d =>
       Ok (map (fun n => (d ++ "/" ++ n)%string)
             ["img2.png"; "notes.txt"; "img10.png"; "print.jpg"; "img1.png"; "thumbs";
              "img3.png"; "thumbs/img4.png"]);
     is_file := fun p => negb (String.eqb (substring (String.length p - 6) 6 p) "thumbs");
     PIL_open := fun p =>
       if String.eqb (substring (String.length p - 9) 9 p) "notes.txt"
       then Raise (Exn OSError ("cannot identify image file '" ++ p ++ "'"))
       else if String.eqb (substring (String.length p - 9) 9 p) "print.jpg"
       then Ok (sample_image "CMYK")
       else Ok (sample_image "RGB");
     PIL_resample := fun _ _ => [];
     cwd := "/home/user" |}.

(** The encoding and the row stride of an image message. *)
Definition encoded (im : Image) : Prop :=
  (encoding im = "rgb8" /\ step im = img_width im * 3)
  \/ (encoding im = "rgba8" /\ step im = img_width im * 4)
  \/ (encoding im = "mono8" /\ step im = img_width im * 1).




(** ** Timestamps in whole nanoseconds *)

Definition giga : Z := 1000000000.






(** The header timestamps of the image messages of a container, in the
    order in which they were written. *)
Definition image_stamps {F : Type} (wr : SequentialWriter F) : list (Z * Z) :=
  flat_map (fun rec =>
              match snd (fst rec) with
              | ImageMsg m => [(sec (stamp (img_header m)), nanosec (stamp (img_header m)))]
              | CameraInfoMsg _ => []
              end) (records wr).









Definition timed_converter64 (t0 : Z) (r : PrimFloat.float)
  : Img2BagConverter PrimFloat.float :=
  set_rate r
    (set_start_timestamp (of_int t0)
       (Img2BagConverter_init [("/data/left", "/cam/left"); ("/data/right", "/cam/right")]
          (of_int 0))).

(** The header timestamps of the image messages in the container of a
    world. *)
Definition world_stamps {F : Type} (w : World F) : list (Z * Z) :=
  match rosbag_writer w with
  | Some wr => image_stamps wr
  | None => []
  end.



(** ** The order of the files *)





(** ** utils.py: the natural sort key *)




(** The default of [sys.get_int_max_str_digits()]. *)
Definition int_max_str_digits : nat := 4300.








Definition all_digit (s : string) : bool := forall_chars is_digit s.

(** A string that does not begin with a digit. *)
Definition head_no_digit (s : string) : bool :=
  match s with
  | String a _ => negb (is_digit a)
  | EmptyString => true
  end.



(** ** Timestamps of either sign *)


(** ** A run that stops *)

(** The world after a file has been opened and its processing has raised
    an exception that the loop does not catch. *)
Definition after_read {F : Type} (self : Img2BagConverter F) (file_path : string)
    (w : World F) : World F :=
  {| rosbag_writer := rosbag_writer w;
     writer_held := writer_held w;
     console := console w
                ++ (if verbose self then [("Parsing: '" ++ file_path ++ "'")%string] else []);
     stderr := stderr w;
     fs_reads := fs_reads w ++ [file_path] |}.

(** The exception of [Image.resize] for a size with a dimension below 1. *)
Definition empty_size : exn := Exn ValueError "height and width must be > 0".

(** ** Runs that differ in what they print *)

(** The setter of [verbose]. *)
Definition set_verbose {F : Type} (value : bool) (c : Img2BagConverter F)
  : Img2BagConverter F :=
  {| image_topic_pairs := image_topic_pairs c; verbose := value;
     camera_info_topic := camera_info_topic c; imgsz := imgsz c;
     start_timestamp := start_timestamp c; rate := rate c;
     recursive_dirs := recursive_dirs c; conv_storage_id := conv_storage_id c |}.

(** Two worlds that differ at most in what has been printed. *)
Definition same_bag {F : Type} (w v : World F) : Prop :=
  rosbag_writer w = rosbag_writer v
  /\ writer_held w = writer_held v
  /\ stderr w = stderr v
  /\ fs_reads w = fs_reads v.

(** Two commands that, from such worlds, return or raise the same and
    lead to such worlds. *)
Definition agree {F A : Type} (m1 m2 : M F A) : Prop :=
  forall w v, same_bag w v ->
    snd (m1 w) = snd (m2 v) /\ same_bag (fst (m1 w)) (fst (m2 v)).

(** ** What a run leaves in place *)

(** Records written two by two: an image and its calibration, at the
    same time, with the same header and the same size. *)
Inductive paired {F : Type} : list (string * Message F * Z) -> Prop :=
| paired_nil : paired []
| paired_cons (image_topic camera_info_topic : string) (im : Image)
    (ci : CameraInfo F) (ts : Z) (rest : list (string * Message F * Z)) :
    img_header im = ci_header ci ->
    img_height im = ci_height ci ->
    img_width im = ci_width ci ->
    paired rest ->
    paired ((image_topic, ImageMsg im, ts)
            :: (camera_info_topic, CameraInfoMsg ci, ts) :: rest).

(** A list that goes on from another. *)
Definition extends {A : Type} (l l' : list A) : Prop := exists more, l' = l ++ more.

(** A world that goes on from another: the error stream and the hold on
    the writer are the same, the console and the paths opened go on, and
    so does the container, if there is one, in its channels and, two by
    two, in its records. *)
Definition grows {F : Type} (w w' : World F) : Prop :=
  writer_held w' = writer_held w
  /\ stderr w' = stderr w
  /\ extends (console w) (console w')
  /\ extends (fs_reads w) (fs_reads w')
  /\ match rosbag_writer w with
     | Some wr =>
         exists wr',
           rosbag_writer w' = Some wr'
           /\ uri wr' = uri wr
           /\ storage_id wr' = storage_id wr
           /\ extends (channels wr) (channels wr')
           /\ exists new, records wr' = records wr ++ new /\ paired new
     | None => rosbag_writer w' = None
     end.

(** The last line that [convert] prints. *)
Definition saved_line (output : string) : string :=
  (newline ++ "[bold green]Saved ROS bag file to '" ++ output ++ "'.[/bold green]")%string.

(** ** The command line *)

(** Nothing, or the newline that the end of a pattern lets pass. *)
Definition line_end (nl : string) : Prop := nl = EmptyString \/ nl = newline.

(** ** The timestamps of all the topics *)

(** * Properties *)

(** ** Strings *)

Lemma append_assoc (s t u : string) : ((s ++ t) ++ u = s ++ (t ++ u))%string.
Proof. induction s as [|a s IH]; simpl; [reflexivity | rewrite IH; reflexivity]. Qed.

Lemma append_nil_r (s : string) : (s ++ EmptyString)%string = s.
Proof. induction s as [|a s IH]; simpl; [reflexivity | rewrite IH; reflexivity]. Qed.

Lemma split_not_nil (c : ascii) (s : string) : split c s <> [].
Proof.
  destruct s as [|a s]; simpl; [discriminate|].
  destruct (Ascii.eqb a c); [discriminate|].
  destruct (split c s); discriminate.
Qed.

(** No field of a split holds the separator. *)
Lemma split_fields_free (c : ascii) (s : string) :
  Forall (fun x => has_char c x = false) (split c s).
Proof.
  induction s as [|a s IH]; simpl.
  - constructor; [reflexivity | constructor].
  - destruct (Ascii.eqb a c) eqn:E.
    + constructor; [reflexivity | exact IH].
    + destruct (split c s) as [|field fields].
      * constructor; [simpl; rewrite E; reflexivity | constructor].
      * inversion IH; subst. constructor; [simpl; rewrite E; assumption | assumption].
Qed.

Lemma split_free (c : ascii) (s : string) :
  has_char c s = false -> split c s = [s].
Proof.
  induction s as [|a s IH]; simpl; [reflexivity|].
  destruct (Ascii.eqb a c); simpl; [discriminate|].
  intros Hs. rewrite (IH Hs). reflexivity.
Qed.

Lemma join_cons (c : ascii) (x : string) (l : list string) :
  l <> [] -> join c (x :: l) = (x ++ String c (join c l))%string.
Proof.
  destruct l; [congruence|]. intros _. reflexivity.
Qed.

Lemma join_split (c : ascii) (s : string) : join c (split c s) = s.
Proof.
  induction s as [|a s IH]; [reflexivity|].
  simpl. destruct (Ascii.eqb_spec a c) as [->|Hac].
  - rewrite join_cons by apply split_not_nil. rewrite IH. reflexivity.
  - pose proof (split_not_nil c s) as Hne.
    destruct (split c s) as [|field fields]; [congruence|].
    destruct fields as [|g fields].
    + unfold join in *. simpl in *. congruence.
    + rewrite join_cons by discriminate. rewrite join_cons in IH by discriminate.
      simpl. rewrite IH. reflexivity.
Qed.

Lemma join_app (c : ascii) (l1 l2 : list string) :
  l1 <> [] -> l2 <> [] ->
  join c (l1 ++ l2) = (join c l1 ++ String c (join c l2))%string.
Proof.
  intros H1 H2. induction l1 as [|x l1 IH]; [congruence|].
  destruct l1 as [|y l1].
  - simpl app. rewrite join_cons by assumption. reflexivity.
  - change ((x :: y :: l1) ++ l2) with (x :: (y :: l1) ++ l2).
    rewrite join_cons by (simpl; discriminate).
    rewrite IH by discriminate.
    rewrite (join_cons c x (y :: l1)) by discriminate.
    rewrite append_assoc. reflexivity.
Qed.

Lemma has_char_app (c : ascii) (s t : string) :
  has_char c (s ++ t) = has_char c s || has_char c t.
Proof.
  induction s as [|a s IH]; simpl; [reflexivity|].
  rewrite IH. apply orb_assoc.
Qed.

Lemma split_app_sep (c : ascii) (s t : string) :
  split c (s ++ String c t) = split c s ++ split c t.
Proof.
  induction s as [|a s IH]; simpl.
  - rewrite Ascii.eqb_refl. reflexivity.
  - destruct (Ascii.eqb a c); [rewrite IH; reflexivity|].
    rewrite IH. pose proof (split_not_nil c s) as Hne.
    destruct (split c s); [congruence | reflexivity].
Qed.

Lemma split_join (c : ascii) (l : list string) :
  l <> [] -> Forall (fun x => has_char c x = false) l -> split c (join c l) = l.
Proof.
  induction l as [|x l IH]; [congruence|]. intros _ Hl.
  inversion Hl as [|? ? Hx Hl']; subst.
  destruct l as [|y l].
  - simpl. apply split_free; assumption.
  - rewrite join_cons by discriminate. rewrite split_app_sep.
    rewrite IH by (discriminate || assumption).
    rewrite split_free by assumption. reflexivity.
Qed.

(** ** Pure paths *)

Lemma startswith_free (c : ascii) (s : string) :
  has_char c s = false -> startswith c s = false.
Proof.
  destruct s as [|a s]; simpl; [reflexivity|].
  destruct (Ascii.eqb a c); simpl; [discriminate | reflexivity].
Qed.

(** A separator-free argument adds itself to the parts, when it is kept. *)
Lemma joinpath_field (p : PurePath) (x : string) :
  has_char slash x = false ->
  joinpath p x = {| root := root p; parts := parts p ++ filter kept_segment [x] |}.
Proof.
  intros Hx. unfold joinpath.
  destruct (String.eqb_spec x EmptyString) as [->|Hne].
  - simpl. rewrite app_nil_r. destruct p; reflexivity.
  - unfold splitroot. rewrite (startswith_free _ _ Hx). simpl.
    unfold segments. rewrite (split_free _ _ Hx). reflexivity.
Qed.

Lemma PurePath_of_fields (l : list string) (p : PurePath) :
  Forall (fun x => has_char slash x = false) l ->
  fold_left joinpath l p = {| root := root p; parts := parts p ++ filter kept_segment l |}.
Proof.
  revert p. induction l as [|x l IH]; intros p Hl.
  - simpl. rewrite app_nil_r. destruct p; reflexivity.
  - inversion Hl as [|? ? Hx Hl']; subst.
    simpl fold_left. rewrite (joinpath_field p x Hx), (IH _ Hl').
    simpl. rewrite <- app_assoc. destruct (kept_segment x); reflexivity.
Qed.

Lemma Forall_removelast {A : Type} (P : A -> Prop) (l : list A) :
  Forall P l -> Forall P (removelast l).
Proof.
  induction l as [|a l IH]; intros Hl; [constructor|].
  inversion Hl; subst. simpl. destruct l; [constructor|].
  constructor; [assumption | apply IH; assumption].
Qed.

Lemma filter_all {A : Type} (f : A -> bool) (l : list A) :
  Forall (fun x => f x = true) l -> filter f l = l.
Proof.
  induction 1 as [|x l Hx _ IH]; simpl; [reflexivity|].
  rewrite Hx, IH. reflexivity.
Qed.

Lemma join_kept_nonempty (ks : list string) :
  Forall (fun x => kept_segment x = true) ks -> ks <> [] ->
  join slash ks <> EmptyString.
Proof.
  intros Hk Hne. destruct ks as [|x ks]; [congruence|].
  inversion Hk as [|? ? Hx _]; subst.
  destruct x as [|a x]; [discriminate Hx|].
  destruct ks; unfold join; simpl; discriminate.
Qed.

Lemma Forall_filter {A : Type} (f : A -> bool) (l : list A) :
  Forall (fun x => f x = true) (filter f l).
Proof.
  induction l as [|a l IH]; simpl; [constructor|].
  destruct (f a) eqn:E; [constructor; assumption | assumption].
Qed.

Lemma PurePath_str_relative (ks : list string) :
  Forall (fun x => kept_segment x = true) ks ->
  PurePath_str {| root := EmptyString; parts := ks |} = str_of_parts ks.
Proof.
  intros Hk. unfold PurePath_str. simpl.
  destruct ks as [|x ks]; [reflexivity|].
  destruct (String.eqb_spec (join slash (x :: ks)) EmptyString) as [E|E].
  - exfalso. revert E. apply join_kept_nonempty; [assumption | discriminate].
  - reflexivity.
Qed.

Lemma PurePath_of_fields_str (l : list string) :
  Forall (fun x => has_char slash x = false) l ->
  PurePath_str (PurePath_of l) = str_of_parts (filter kept_segment l).
Proof.
  intros Hl. unfold PurePath_of. rewrite (PurePath_of_fields _ _ Hl). simpl.
  apply PurePath_str_relative, Forall_filter.
Qed.

Lemma get_frame_id_from_topic_eq (topic : string) :
  get_frame_id_from_topic topic = str_of_parts (filter kept_segment (frame_segments topic)).
Proof.
  unfold get_frame_id_from_topic, frame_segments.
  pose proof (split_fields_free slash (strip slash topic)) as Hfree.
  destruct (removelast (split slash (strip slash topic))) as [|x parents] eqn:E.
  - apply PurePath_of_fields_str; assumption.
  - apply PurePath_of_fields_str. rewrite <- E. apply Forall_removelast; assumption.
Qed.

Lemma removelast_nil_singleton {A : Type} (l : list A) :
  l <> [] -> removelast l = [] -> exists a, l = [a].
Proof.
  destruct l as [|a [|b l]]; intros Hne E; [congruence | eauto | discriminate].
Qed.

(** C4, as amended.  The frame identifier is made of the segments of the
    stripped topic other than the last (of its only segment when there is
    no other), of which the empty ones and the single dots are left out;
    it is a single dot when none is left.  Whenever the stripped topic
    has no empty and no single-dot segment it is what the specification
    words: the parent segments joined, or the stripped topic itself.  The
    two examples of the specification hold. *)
Theorem frame_id_from_topic :
  (forall topic,
     get_frame_id_from_topic topic
     = str_of_parts (filter kept_segment (frame_segments topic)))
  /\ (forall topic,
        plain_path (strip slash topic) ->
        get_frame_id_from_topic topic = spec_frame_id topic)
  /\ get_frame_id_from_topic "/cam/front" = "cam"
  /\ get_frame_id_from_topic "front" = "front".
Proof.
  split; [exact get_frame_id_from_topic_eq|].
  split; [|split; reflexivity].
  intros topic Hplain. rewrite get_frame_id_from_topic_eq.
  unfold frame_segments, spec_frame_id, plain_path in *.
  set (segs := split slash (strip slash topic)) in *.
  destruct (removelast segs) as [|x parents] eqn:E.
  - destruct (removelast_nil_singleton segs (split_not_nil _ _) E) as [a Ha].
    rewrite Ha in *. rewrite (filter_all _ _ Hplain). simpl.
    rewrite <- (join_split slash (strip slash topic)). fold segs. rewrite Ha.
    reflexivity.
  - rewrite filter_all; [reflexivity|].
    rewrite <- E. apply Forall_removelast; assumption.
Qed.

(** The frame identifier of the topic [a/b/c], whose segments are all
    kept. *)
Lemma frame_id_from_topic_witness :
  plain_path (strip slash "/a/b/c")
  /\ get_frame_id_from_topic "/a/b/c" = spec_frame_id "/a/b/c".
Proof.
  assert (H : plain_path (strip slash "/a/b/c")).
  { unfold plain_path. simpl. repeat constructor. }
  split; [exact H|].
  exact (proj1 (proj2 frame_id_from_topic) "/a/b/c" H).
Defined.

(** The empty topic has a single dot as its frame identifier, not the
    empty stripped topic. *)
Lemma frame_id_of_empty_topic :
  get_frame_id_from_topic EmptyString = "."
  /\ spec_frame_id EmptyString = EmptyString
  /\ get_frame_id_from_topic EmptyString <> spec_frame_id EmptyString.
Proof.
  split; [reflexivity|]. split; [reflexivity|]. discriminate.
Qed.

(** ** Channel names *)

Lemma plain_path_not_rooted (s : string) :
  no_empty_segment s -> startswith slash s = false.
Proof.
  unfold no_empty_segment. destruct s as [|a s]; simpl; [reflexivity|].
  destruct (Ascii.eqb a slash); [|reflexivity].
  intros Hs. inversion Hs; congruence.
Qed.

Lemma plain_no_empty (s : string) : plain_path s -> no_empty_segment s.
Proof.
  unfold plain_path, no_empty_segment. apply Forall_impl.
  intros x Hx ->. discriminate Hx.
Qed.

Lemma lstrip_not_rooted (s : string) : startswith slash s = false -> lstrip slash s = s.
Proof.
  destruct s as [|a s]; simpl; [reflexivity|]. intros ->. reflexivity.
Qed.

Lemma len_String (a : ascii) (s : string) : len (String a s) = len s + 1.
Proof. unfold len. simpl String.length. lia. Qed.

(** The root of a name that starts with exactly one slash. *)
Lemma splitroot_one_slash (s : string) :
  startswith slash s = false -> splitroot (String slash s) = ("/", s).
Proof.
  intros Hs. unfold splitroot.
  change (startswith slash (String slash s)) with true.
  change (lstrip slash (String slash s)) with (lstrip slash s).
  rewrite (lstrip_not_rooted _ Hs), len_String.
  replace (len s + 1 - len s) with 1 by lia. reflexivity.
Qed.

Lemma splitroot_rooted (c : string) :
  startswith slash c = true -> fst (splitroot c) <> EmptyString.
Proof.
  intros Hc. unfold splitroot. rewrite Hc.
  destruct (len c - len (lstrip slash c) =? 2); discriminate.
Qed.

(** A rooted argument replaces all that came before it. *)
Lemma joinpath_rooted (p : PurePath) (c : string) :
  startswith slash c = true -> joinpath p c = PurePath_of [c].
Proof.
  intros Hc. unfold PurePath_of. simpl fold_left. unfold joinpath.
  destruct (String.eqb_spec c EmptyString) as [->|_]; [discriminate Hc|].
  pose proof (splitroot_rooted c Hc) as Hr.
  destruct (splitroot c) as [r rel]. simpl in Hr.
  destruct (String.eqb_spec r EmptyString); [contradiction | reflexivity].
Qed.

Lemma segments_no_empty (s : string) :
  no_empty_segment s -> has_char "." s = false -> segments s = split slash s.
Proof.
  intros Hs Hdot. unfold segments. apply filter_all.
  unfold no_empty_segment in Hs.
  assert (Hd : Forall (fun x => has_char "." x = false) (split slash s)).
  { clear Hs. induction s as [|a s IH]; simpl in *.
    - repeat constructor.
    - apply orb_false_iff in Hdot. destruct Hdot as [Ha Hs'].
      specialize (IH Hs'). destruct (Ascii.eqb a slash).
      + constructor; [reflexivity | assumption].
      + destruct (split slash s) as [|field fields].
        * constructor; [simpl; rewrite Ha; reflexivity | constructor].
        * inversion IH; subst.
          constructor; [simpl; rewrite Ha; assumption | assumption]. }
  rewrite Forall_forall in *. intros x Hx.
  specialize (Hs x Hx). specialize (Hd x Hx).
  unfold kept_segment.
  destruct (String.eqb_spec x EmptyString) as [->|_]; [congruence|].
  destruct (String.eqb_spec x ".") as [->|_]; [discriminate Hd | reflexivity].
Qed.

Lemma segments_plain (s : string) : plain_path s -> segments s = split slash s.
Proof. intros Hs. unfold segments. apply filter_all. exact Hs. Qed.

Lemma chomp_chars (p : ascii -> bool) (s : string) :
  forall_chars p (chomp s) = true ->
  forall_chars (fun a => p a || Ascii.eqb a (ascii_of_nat 10)) s = true.
Proof.
  induction s as [|a s IH]; [reflexivity|].
  destruct s as [|b s].
  - simpl. destruct (Ascii.eqb a (ascii_of_nat 10)); simpl.
    + intros _. rewrite orb_true_r. reflexivity.
    + rewrite !andb_true_r. intros ->. reflexivity.
  - change (chomp (String a (String b s))) with (String a (chomp (String b s))).
    simpl forall_chars at 1. intros Hp. apply andb_true_iff in Hp.
    destruct Hp as [Ha Hs].
    change (forall_chars (fun a0 => p a0 || Ascii.eqb a0 (ascii_of_nat 10))
              (String a (String b s)))
      with ((p a || Ascii.eqb a (ascii_of_nat 10))
            && forall_chars (fun a0 => p a0 || Ascii.eqb a0 (ascii_of_nat 10))
                 (String b s)).
    rewrite Ha, (IH Hs). reflexivity.
Qed.

Lemma forall_chars_free (p : ascii -> bool) (c : ascii) (s : string) :
  p c = false -> forall_chars p s = true -> has_char c s = false.
Proof.
  intros Hc. induction s as [|a s IH]; simpl; [reflexivity|].
  intros Hp. apply andb_true_iff in Hp. destruct Hp as [Ha Hs].
  rewrite (IH Hs), orb_false_r.
  destruct (Ascii.eqb_spec a c) as [->|]; [congruence | reflexivity].
Qed.

(** An accepted camera-info topic holds no dot. *)
Lemma CameraInfoTopicType_no_dot (c : string) :
  CameraInfoTopicType c = true -> has_char "." c = false.
Proof.
  unfold CameraInfoTopicType. intros Hc. apply andb_true_iff in Hc.
  destruct Hc as [_ Hc]. apply chomp_chars in Hc.
  revert Hc. apply forall_chars_free. reflexivity.
Qed.

Lemma join_nonempty_rooted (c : string) :
  PurePath_str {| root := "/"; parts := segments c |}
  = String slash (join slash (segments c)).
Proof. reflexivity. Qed.

(** A rooted name without doubled or trailing slashes is its own path. *)
Lemma PurePath_str_tidy (c : string) :
  tidy_rooted c -> has_char "." c = false -> PurePath_str (PurePath_of [c]) = c.
Proof.
  destruct c as [|a c']; [contradiction|].
  intros [-> Hc'] Hdot.
  assert (Hdot' : has_char "." c' = false) by exact Hdot.
  assert (Hnr : startswith slash c' = false).
  { destruct Hc' as [->|Hc']; [reflexivity | apply plain_path_not_rooted; assumption]. }
  unfold PurePath_of. simpl fold_left. unfold joinpath.
  change (String.eqb (String slash c') EmptyString) with false. cbv iota.
  rewrite (splitroot_one_slash c' Hnr).
  change (String.eqb "/" EmptyString) with false. cbv iota.
  rewrite join_nonempty_rooted. f_equal.
  destruct Hc' as [->|Hc']; [reflexivity|].
  rewrite (segments_no_empty c' Hc' Hdot'). apply join_split.
Qed.

(** The name of the calibration channel when the configured name is
    relative and neither it nor the frame identifier has a segment that a
    path drops. *)
Lemma PurePath_str_framed (f c : string) :
  plain_path f -> plain_path c ->
  PurePath_str (PurePath_of [String slash f; c])
  = String slash (f ++ String slash c).
Proof.
  intros Hf Hc.
  pose proof (plain_path_not_rooted f (plain_no_empty f Hf)) as Hfr.
  pose proof (plain_path_not_rooted c (plain_no_empty c Hc)) as Hcr.
  unfold PurePath_of. simpl fold_left. unfold joinpath at 2.
  change (String.eqb (String slash f) EmptyString) with false. cbv iota.
  rewrite (splitroot_one_slash f Hfr).
  change (String.eqb "/" EmptyString) with false. cbv iota.
  unfold joinpath.
  destruct (String.eqb_spec c EmptyString) as [->|_].
  { exfalso. inversion Hc as [|? ? Hk _]. discriminate Hk. }
  unfold splitroot. rewrite Hcr.
  change (String.eqb EmptyString EmptyString) with true. cbv iota.
  simpl root. simpl parts.
  rewrite (segments_plain f Hf), (segments_plain c Hc).
  unfold PurePath_str. simpl root. simpl parts.
  rewrite join_app by apply split_not_nil. rewrite !join_split. reflexivity.
Qed.

(** The frame identifier ["."] disappears from the name. *)
Lemma PurePath_str_dot_frame (c : string) :
  plain_path c ->
  PurePath_str (PurePath_of [String slash "."; c]) = String slash c.
Proof.
  intros Hc.
  pose proof (plain_path_not_rooted c (plain_no_empty c Hc)) as Hcr.
  unfold PurePath_of. simpl fold_left. unfold joinpath at 2. simpl.
  unfold joinpath.
  destruct (String.eqb_spec c EmptyString) as [->|_].
  { exfalso. inversion Hc as [|? ? Hk _]. discriminate Hk. }
  unfold splitroot. rewrite Hcr.
  change (String.eqb EmptyString EmptyString) with true. cbv iota.
  simpl root. simpl parts.
  rewrite (segments_plain c Hc).
  unfold PurePath_str. simpl root. simpl parts.
  rewrite join_split. reflexivity.
Qed.

Lemma no_empty_plain (c : string) :
  no_empty_segment c -> has_char "." c = false -> plain_path c.
Proof.
  intros Hc Hdot. unfold plain_path.
  rewrite <- (segments_no_empty c Hc Hdot). apply Forall_filter.
Qed.

Lemma filter_free {A : Type} (P : A -> Prop) (f : A -> bool) (l : list A) :
  Forall P l -> Forall P (filter f l).
Proof.
  induction 1 as [|x l Hx _ IH]; simpl; [constructor|].
  destruct (f x); [constructor; assumption | assumption].
Qed.

Lemma frame_segments_free (topic : string) :
  Forall (fun x => has_char slash x = false) (frame_segments topic).
Proof.
  unfold frame_segments.
  pose proof (split_fields_free slash (strip slash topic)) as Hfree.
  destruct (removelast (split slash (strip slash topic))) eqn:E; [assumption|].
  rewrite <- E. apply Forall_removelast; assumption.
Qed.

(** A frame identifier is a single dot or a plain path. *)
Lemma frame_id_plain (topic : string) :
  get_frame_id_from_topic topic = "." \/ plain_path (get_frame_id_from_topic topic).
Proof.
  rewrite get_frame_id_from_topic_eq.
  pose proof (frame_segments_free topic) as Hfree.
  pose proof (Forall_filter kept_segment (frame_segments topic)) as Hkept.
  apply (filter_free _ kept_segment) in Hfree.
  destruct (filter kept_segment (frame_segments topic)) as [|x ks]; [left; reflexivity|].
  right. unfold plain_path, str_of_parts.
  rewrite split_join; [assumption | discriminate | assumption].
Qed.

Lemma camera_info_topic_name_rooted {F : Type} (self : Img2BagConverter F) (f : string) :
  startswith slash (camera_info_topic self) = true ->
  camera_info_topic_name self f = PurePath_str (PurePath_of [camera_info_topic self]).
Proof.
  intros Hc. unfold camera_info_topic_name, PurePath_of. simpl fold_left.
  rewrite (joinpath_rooted _ _ Hc). reflexivity.
Qed.

(** What [_register_topics] does to a world that holds a writer. *)
Lemma register_topics_run {F : Type} (self : Img2BagConverter F)
    (f topic : string) (w : World F) (wr : SequentialWriter F) :
  rosbag_writer w = Some wr ->
  _register_topics self f topic w
  = ({| rosbag_writer :=
          Some {| uri := uri wr; storage_id := storage_id wr;
                  channels :=
                    add_channel
                      {| tm_name := camera_info_topic_name self f;
                         tm_type := "sensor_msgs/msg/CameraInfo";
                         tm_serialization_format := "cdr" |}
                      (add_channel
                         {| tm_name := image_topic_name topic;
                            tm_type := "sensor_msgs/msg/Image";
                            tm_serialization_format := "cdr" |}
                         (channels wr));
                  records := records wr |};
        writer_held := writer_held w;
        console := console w;
        stderr := stderr w;
        fs_reads := fs_reads w |},
     Ok (image_topic_name topic, camera_info_topic_name self f)).
Proof.
  intros Hw. unfold _register_topics, bindM, create_topic, update_writer, set_writer, ret.
  rewrite Hw. simpl. reflexivity.
Qed.

Lemma add_channel_In (meta : TopicMetadata) (l : list TopicMetadata) :
  In (tm_name meta) (map tm_name (add_channel meta l)).
Proof.
  unfold add_channel.
  destruct (existsb _ l) eqn:E.
  - apply existsb_exists in E. destruct E as [t [Ht E]].
    apply String.eqb_eq in E. rewrite <- E. apply in_map. assumption.
  - rewrite map_app. apply in_or_app. right. left. reflexivity.
Qed.

(** C10, as amended.  For the frame identifier of every topic and every
    camera-info topic accepted by the command line: when the configured
    name begins with a slash, the calibration channel is registered under
    the path made of the configured name alone, the frame identifier is
    discarded, and that path is the configured name itself when it has no
    doubled and no trailing slash; when the configured name does not begin
    with a slash and has no doubled or trailing slash, the channel is
    registered under slash, frame identifier, slash, configured name, and
    under slash, configured name when the frame identifier is the single
    dot. *)
Theorem calibration_channel_name {F : Type} (self : Img2BagConverter F)
    (topic : string) (w : World F) (wr : SequentialWriter F) :
  CameraInfoTopicType (camera_info_topic self) = true ->
  rosbag_writer w = Some wr ->
  let f := get_frame_id_from_topic topic in
  let c := camera_info_topic self in
  (exists w' wr',
      _register_topics self f topic w
      = (w', Ok (image_topic_name topic, camera_info_topic_name self f))
      /\ rosbag_writer w' = Some wr'
      /\ In (camera_info_topic_name self f) (map tm_name (channels wr')))
  /\ (startswith slash c = true ->
      camera_info_topic_name self f = PurePath_str (PurePath_of [c])
      /\ (tidy_rooted c -> camera_info_topic_name self f = c))
  /\ (startswith slash c = false -> no_empty_segment c ->
      (f <> "." -> camera_info_topic_name self f = String slash (f ++ String slash c))
      /\ (f = "." -> camera_info_topic_name self f = String slash c)).
Proof.
  intros Hacc Hw f c.
  pose proof (CameraInfoTopicType_no_dot _ Hacc) as Hdot. fold c in Hdot.
  split; [|split].
  - rewrite (register_topics_run self f topic w wr Hw).
    eexists. eexists. split; [reflexivity|]. split; [reflexivity|].
    simpl channels.
    apply (add_channel_In {| tm_name := camera_info_topic_name self f;
                             tm_type := "sensor_msgs/msg/CameraInfo";
                             tm_serialization_format := "cdr" |}).
  - intros Hroot. split.
    + apply camera_info_topic_name_rooted. exact Hroot.
    + intros Htidy. rewrite (camera_info_topic_name_rooted self f Hroot).
      apply PurePath_str_tidy; assumption.
  - intros Hrel Hseg. pose proof (no_empty_plain c Hseg Hdot) as Hplain. split.
    + intros Hf. unfold camera_info_topic_name. fold c.
      destruct (frame_id_plain topic) as [Hd|Hp]; [contradiction|].
      apply PurePath_str_framed; assumption.
    + intros Hf. unfold camera_info_topic_name. fold c. rewrite Hf.
      apply PurePath_str_dot_frame; assumption.
Qed.

(** The calibration channel of the topic [/cam/left] under the default
    camera-info topic. *)
Lemma calibration_channel_name_witness :
  camera_info_topic_name (sample_converter "camera_info")
    (get_frame_id_from_topic "/cam/left") = "/cam/camera_info".
Proof.
  assert (Hacc : CameraInfoTopicType (camera_info_topic (sample_converter "camera_info"))
                 = true) by reflexivity.
  assert (Hw : rosbag_writer (@opened_world Q)
               = Some {| uri := "/out/bag"; storage_id := MCAP;
                         channels := []; records := [] |}) by reflexivity.
  assert (Hseg : no_empty_segment (camera_info_topic (sample_converter "camera_info"))).
  { unfold no_empty_segment. simpl. repeat constructor. discriminate. }
  exact (proj1 (proj2 (proj2 (calibration_channel_name (sample_converter "camera_info")
                                "/cam/left" opened_world _ Hacc Hw))
                 eq_refl Hseg)
           ltac:(discriminate)).
Defined.

(** A camera-info topic with a trailing slash is accepted by the command
    line and is not the name under which the channel is registered: the
    rooted [/a/] is registered as [/a], the relative [a/] under the frame
    identifier [cam] as [/cam/a]. *)
Lemma calibration_channel_name_trailing_slash :
  (CameraInfoTopicType "/a/" = true
   /\ startswith slash "/a/" = true
   /\ camera_info_topic_name (sample_converter "/a/") (get_frame_id_from_topic "/cam/left")
      = "/a"
   /\ camera_info_topic_name (sample_converter "/a/") (get_frame_id_from_topic "/cam/left")
      <> "/a/")
  /\ (CameraInfoTopicType "a/" = true
      /\ startswith slash "a/" = false
      /\ camera_info_topic_name (sample_converter "a/") (get_frame_id_from_topic "/cam/left")
         = "/cam/a"
      /\ camera_info_topic_name (sample_converter "a/") (get_frame_id_from_topic "/cam/left")
         <> "/cam/a/").
Proof.
  repeat split; try reflexivity; discriminate.
Qed.

(** ** Sorting *)





(** ** The loop over the files *)

Section Loop.

Context {F : Type} `{PyFloat F}.
Variable fs : FileSystem.
Variable self : Img2BagConverter F.
Variables frame_id image_topic camera_info_topic : string.

Let loop := convert_files fs self frame_id image_topic camera_info_topic.

Lemma verbose_print_console (file_path : string) (w : World F) :
  (if verbose self then rprint ("Parsing: '" ++ file_path ++ "'")%string else ret tt) w
  = ({| rosbag_writer := rosbag_writer w;
        writer_held := writer_held w;
        console := console w
                   ++ (if verbose self then [("Parsing: '" ++ file_path ++ "'")%string] else []);
        stderr := stderr w;
        fs_reads := fs_reads w |}, Ok tt).
Proof.
  destruct (verbose self); unfold rprint, ret; [reflexivity|].
  rewrite app_nil_r. destruct w; reflexivity.
Qed.

(** One turn of the loop. *)
Lemma convert_files_cons (file_path : string) (files : list string) (cursor : Z * Z) :
  loop (file_path :: files) cursor
  = ((if verbose self then rprint ("Parsing: '" ++ file_path ++ "'")%string else ret tt) ;;;
     try_except
       (_create_image_camera_info_messages fs self file_path (header_at frame_id cursor))
       caught_classes
       (fun e => rprint (warning e) ;;; loop files cursor)
       (fun msgs =>
          timestamp <~ lift (to_int (fadd (fmul (of_int (fst cursor)) lit_1e9)
                                          (of_int (snd cursor)))) ;;
          write image_topic (ImageMsg (fst msgs)) timestamp ;;;
          write camera_info_topic (CameraInfoMsg (snd msgs)) timestamp ;;;
          cursor' <~ lift (advance self cursor) ;;
          loop files cursor')).
Proof. reflexivity. Qed.

(** A file whose processing raises a caught exception: the loop goes on
    with the next file and the same cursor. *)
Lemma convert_files_skip (file_path : string) (files : list string)
    (cursor : Z * Z) (e : exn) (w : World F) :
  create_messages fs self file_path (header_at frame_id cursor) = Raise e ->
  is_caught caught_classes e = true ->
  loop (file_path :: files) cursor w = loop files cursor (after_skip self file_path e w).
Proof.
  intros He Hc. rewrite convert_files_cons.
  unfold bindM at 1. rewrite verbose_print_console.
  unfold try_except, _create_image_camera_info_messages, bindM, fs_read, lift.
  rewrite He, Hc. reflexivity.
Qed.

(** A file whose processing raises another exception ends the loop. *)
Lemma convert_files_abort (file_path : string) (files : list string)
    (cursor : Z * Z) (e : exn) (w : World F) :
  create_messages fs self file_path (header_at frame_id cursor) = Raise e ->
  is_caught caught_classes e = false ->
  snd (loop (file_path :: files) cursor w) = Raise e.
Proof.
  intros He Hc. rewrite convert_files_cons.
  unfold bindM at 1. rewrite verbose_print_console.
  unfold try_except, _create_image_camera_info_messages, bindM, fs_read, lift.
  rewrite He, Hc. reflexivity.
Qed.


Lemma same_output_refl (w : World F) : same_output w w.
Proof. repeat split. Qed.

(** What the loop writes and returns does not depend on what has been
    printed or read before. *)
Lemma convert_files_same_output (files : list string) :
  forall (cursor : Z * Z) (w v : World F),
    same_output w v ->
    snd (loop files cursor w) = snd (loop files cursor v)
    /\ same_output (fst (loop files cursor w)) (fst (loop files cursor v)).
Proof.
  induction files as [|file_path files IH]; intros cursor w v Hwv.
  - split; [reflexivity | exact Hwv].
  - destruct Hwv as [Hbag [Hheld Herr]].
    rewrite !convert_files_cons.
    unfold try_except, _create_image_camera_info_messages, fs_read, lift, bindM.
    rewrite !verbose_print_console. cbv beta iota.
    destruct (create_messages fs self file_path (header_at frame_id cursor)) as [msgs|e].
    + destruct (to_int _) as [ts|e]; [|repeat split; assumption].
      unfold write, update_writer, set_writer. cbn [rosbag_writer]. rewrite <- Hbag.
      destruct (rosbag_writer w) as [wr|]; [|repeat split; assumption].
      cbn [writer_held stderr]. rewrite <- Hheld, <- Herr.
      destruct (advance self cursor) as [cursor'|e]; [|repeat split; reflexivity].
      apply IH. repeat split; reflexivity.
    + destruct (is_caught caught_classes e).
      * unfold rprint. apply IH. repeat split; assumption.
      * repeat split; assumption.
Qed.

End Loop.

Lemma is_caught_classes (e : exn) :
  is_caught caught_classes e = true
  <-> exn_cls e = OSError \/ exn_cls e = SyntaxError \/ exn_cls e = UserWarning.
Proof.
  unfold is_caught, caught_classes. destruct e as [cls msg]. simpl.
  destruct cls; simpl; split; intros Hc; try discriminate; auto;
    destruct Hc as [Hc|[Hc|Hc]]; discriminate.
Qed.

(** C2.  When the processing of a file raises one of the exceptions that
    the loop catches (those of class OSError, SyntaxError or UserWarning,
    and no other), the loop goes on with the next file from the same
    cursor, in a world whose container is unchanged: nothing is written
    for the file.  What the loop then writes and returns is what it would
    write and return had the file not been listed, so the next file that
    is written has the timestamp that the skipped file would have had. *)
Theorem skipped_file_keeps_cursor {F : Type} `{PyFloat F} (fs : FileSystem)
    (self : Img2BagConverter F) (frame_id image_topic camera_info_topic : string)
    (file_path : string) (files : list string) (cursor : Z * Z) (e : exn) (w : World F) :
  create_messages fs self file_path (header_at frame_id cursor) = Raise e ->
  exn_cls e = OSError \/ exn_cls e = SyntaxError \/ exn_cls e = UserWarning ->
  let run := convert_files fs self frame_id image_topic camera_info_topic in
  run (file_path :: files) cursor w = run files cursor (after_skip self file_path e w)
  /\ rosbag_writer (after_skip self file_path e w) = rosbag_writer w
  /\ snd (run (file_path :: files) cursor w) = snd (run files cursor w)
  /\ rosbag_writer (fst (run (file_path :: files) cursor w))
     = rosbag_writer (fst (run files cursor w)).
Proof.
  intros He Hcls run. apply is_caught_classes in Hcls.
  pose proof (convert_files_skip fs self frame_id image_topic camera_info_topic
                file_path files cursor e w He Hcls) as Hskip.
  fold run in Hskip.
  assert (Hsame : same_output (after_skip self file_path e w) w) by (repeat split).
  destruct (convert_files_same_output fs self frame_id image_topic camera_info_topic
              files cursor _ _ Hsame) as [Hres [Hbag _]].
  fold run in Hres, Hbag.
  split; [exact Hskip|]. split; [reflexivity|].
  rewrite Hskip. split; assumption.
Qed.

(** The file [notes.txt] of the sample directory is skipped. *)
Lemma skipped_file_keeps_cursor_witness :
  rosbag_writer
    (fst (convert_files sample_fs (sample_converter "camera_info") "cam" "/cam/left"
            "/cam/camera_info" ["/data/left/notes.txt"; "/data/left/img1.png"] (100, 0)
            opened_world))
  = rosbag_writer
      (fst (convert_files sample_fs (sample_converter "camera_info") "cam" "/cam/left"
              "/cam/camera_info" ["/data/left/img1.png"] (100, 0) opened_world)).
Proof.
  exact (proj2 (proj2 (proj2
    (skipped_file_keeps_cursor sample_fs (sample_converter "camera_info")
       "cam" "/cam/left" "/cam/camera_info" "/data/left/notes.txt"
       ["/data/left/img1.png"] (100, 0)
       (Exn OSError "cannot identify image file '/data/left/notes.txt'")
       opened_world eq_refl (or_introl eq_refl))))).
Defined.

(** ** The messages of a file *)

Lemma dict_in_image_encoding_map (m : string) :
  dict_in m image_encoding_map = true <-> m = "RGB" \/ m = "RGBA" \/ m = "L".
Proof.
  unfold dict_in, image_encoding_map. cbn [existsb fst].
  destruct (String.eqb_spec "RGB" m) as [<-|H1]; [intuition|].
  destruct (String.eqb_spec "RGBA" m) as [<-|H2]; [intuition|].
  destruct (String.eqb_spec "L" m) as [<-|H3]; [intuition|].
  cbn [orb]. split; [discriminate|]. intros [E|[E|E]]; congruence.
Qed.

Section Messages.

Context {F : Type} `{PyFloat F}.
Variable fs : FileSystem.
Variable self : Img2BagConverter F.

Lemma create_messages_unsupported (file_path : string) (header : Header) (img : PILImage) :
  load_image fs self file_path = Ok img ->
  dict_in (mode img) image_encoding_map = false ->
  create_messages fs self file_path header = Raise (unsupported_mode img file_path).
Proof.
  intros Hl Hm. unfold create_messages. rewrite Hl. cbn [bind]. rewrite Hm. reflexivity.
Qed.

Lemma create_messages_supported (file_path : string) (header : Header) (img : PILImage)
    (d k r p : list F) :
  load_image fs self file_path = Ok img ->
  dict_in (mode img) image_encoding_map = true ->
  get_flatten_calibration_matrices (size img) = Ok (d, k, r, p) ->
  create_messages fs self file_path header
  = Ok ({| img_header := header;
           img_height := pil_height img;
           img_width := pil_width img;
           encoding := dict_get (mode img) "rgb8" image_encoding_map;
           is_bigendian := false;
           step := pil_width img * Z.of_nat (List.length (getbands (mode img)));
           data := tobytes img |},
        {| ci_header := header;
           ci_height := pil_height img;
           ci_width := pil_width img;
           distortion_model := "plumb_bob";
           ci_d := d; ci_k := k; ci_r := r; ci_p := p |}).
Proof.
  intros Hl Hm Hc. unfold create_messages. rewrite Hl. cbn [bind]. rewrite Hm.
  cbn [negb]. rewrite Hc. reflexivity.
Qed.

Lemma create_messages_image (file_path : string) (header : Header)
    (im : Image) (ci : CameraInfo F) :
  create_messages fs self file_path header = Ok (im, ci) ->
  exists img,
    load_image fs self file_path = Ok img
    /\ (mode img = "RGB" \/ mode img = "RGBA" \/ mode img = "L")
    /\ encoding im = dict_get (mode img) "rgb8" image_encoding_map
    /\ is_bigendian im = false
    /\ img_width im = pil_width img
    /\ img_height im = pil_height img
    /\ step im = pil_width img * Z.of_nat (List.length (getbands (mode img)))
    /\ img_header im = header
    /\ ci_header ci = header.
Proof.
  unfold create_messages. intros Hc.
  destruct (load_image fs self file_path) as [img|e]; [|discriminate Hc].
  cbn [bind] in Hc.
  destruct (dict_in (mode img) image_encoding_map) eqn:Hm; [|discriminate Hc].
  cbn [negb] in Hc.
  destruct (get_flatten_calibration_matrices (size img)) as [[[[d k] r] p]|e];
    [|discriminate Hc].
  cbn [bind] in Hc. injection Hc as <- <-.
  exists img. apply dict_in_image_encoding_map in Hm.
  repeat split; try reflexivity. exact Hm.
Qed.

End Messages.

(** C7.  The pixel-mode mapping is the closed enumeration RGB to rgb8,
    RGBA to rgba8, L to mono8.  A decoded image of any other mode makes
    the creation of the messages raise a UserWarning, which the loop over
    the files catches: the file is skipped and the loop goes on with the
    next file.  For a decoded image of a supported mode whose calibration
    matrices are computed, the messages are created, and the image message
    has the encoding of the mode, is_bigendian false and a step of width
    times 3, 4 and 1 bytes per pixel respectively; every image message
    that is created is of this form. *)
Theorem pixel_mode_mapping {F : Type} `{PyFloat F} (fs : FileSystem)
    (self : Img2BagConverter F) (file_path : string) (header : Header) :
  (forall m, dict_in m image_encoding_map = true <-> m = "RGB" \/ m = "RGBA" \/ m = "L")
  /\ (forall img,
        load_image fs self file_path = Ok img ->
        dict_in (mode img) image_encoding_map = false ->
        create_messages fs self file_path header = Raise (unsupported_mode img file_path)
        /\ exn_cls (unsupported_mode img file_path) = UserWarning
        /\ forall frame_id image_topic camera_info_topic files cursor w,
             convert_files fs self frame_id image_topic camera_info_topic
               (file_path :: files) cursor w
             = convert_files fs self frame_id image_topic camera_info_topic files cursor
                 (after_skip self file_path (unsupported_mode img file_path) w))
  /\ (forall img dkrp (bpp : Z) (enc : string),
        load_image fs self file_path = Ok img ->
        get_flatten_calibration_matrices (size img) = Ok dkrp ->
        (mode img = "RGB" /\ enc = "rgb8" /\ bpp = 3)
        \/ (mode img = "RGBA" /\ enc = "rgba8" /\ bpp = 4)
        \/ (mode img = "L" /\ enc = "mono8" /\ bpp = 1) ->
        exists im ci,
          create_messages fs self file_path header = Ok (im, ci)
          /\ encoding im = enc
          /\ is_bigendian im = false
          /\ img_width im = pil_width img
          /\ step im = pil_width img * bpp)
  /\ (forall im ci,
        create_messages fs self file_path header = Ok (im, ci) ->
        is_bigendian im = false /\ encoded im).
Proof.
  split; [exact dict_in_image_encoding_map|].
  split; [|split].
  - intros img Hl Hm. split; [|split].
    + apply create_messages_unsupported; assumption.
    + reflexivity.
    + intros frame_id image_topic camera_info_topic files cursor w.
      apply convert_files_skip; [|reflexivity].
      apply create_messages_unsupported; assumption.
  - intros img [[[d k] r] p] bpp enc Hl Hc Hmode.
    assert (Hin : dict_in (mode img) image_encoding_map = true).
    { apply dict_in_image_encoding_map. tauto. }
    rewrite (create_messages_supported fs self file_path header img d k r p Hl Hin Hc).
    eexists. eexists. split; [reflexivity|]. cbn [encoding is_bigendian img_width step].
    destruct Hmode as [[Em [Ee Eb]]|[[Em [Ee Eb]]|[Em [Ee Eb]]]];
      rewrite Em, Ee, Eb; repeat split.
  - intros im ci Hc.
    destruct (create_messages_image fs self file_path header im ci Hc)
      as [img [_ [Hmode [Henc [Hbig [Hw [_ [Hstep _]]]]]]]].
    split; [exact Hbig|]. unfold encoded. rewrite Henc, Hstep, Hw.
    destruct Hmode as [Em|[Em|Em]]; rewrite Em;
      [left | right; left | right; right]; split; reflexivity.
Qed.

(** The CMYK image of the sample directory is skipped, and the image
    message of an RGB image of width 1920 has the step 5760. *)
Lemma pixel_mode_mapping_witness :
  create_messages sample_fs (sample_converter "camera_info") "/data/left/print.jpg"
    epoch_header
  = Raise (unsupported_mode (sample_image "CMYK") "/data/left/print.jpg")
  /\ exists im ci,
       create_messages sample_fs (sample_converter "camera_info") "/data/left/img1.png"
         epoch_header = Ok (im, ci)
       /\ encoding im = "rgb8"
       /\ is_bigendian im = false
       /\ img_width im = 1920
       /\ step im = 1920 * 3.
Proof.
  split.
  - exact (proj1 (proj1 (proj2 (pixel_mode_mapping sample_fs
             (sample_converter "camera_info") "/data/left/print.jpg" epoch_header))
             (sample_image "CMYK") eq_refl eq_refl)).
  - assert (Hc : exists dkrp,
               get_flatten_calibration_matrices (F := Q) (size (sample_image "RGB"))
               = Ok dkrp).
    { eexists. vm_compute. reflexivity. }
    destruct Hc as [dkrp Hc].
    exact (proj1 (proj2 (proj2 (pixel_mode_mapping sample_fs
             (sample_converter "camera_info") "/data/left/img1.png" epoch_header)))
             (sample_image "RGB") dkrp 3 "rgb8" eq_refl Hc
             (or_introl (conj eq_refl (conj eq_refl eq_refl)))).
Defined.

Section Headers.

Context {F : Type} `{PyFloat F}.
Variable fs : FileSystem.
Variable self : Img2BagConverter F.




End Headers.

(** ** The entry point *)




(** ** Exact arithmetic *)





Lemma trunc_floor (x : Q) : (0 <= x)%Q -> Exact.trunc x = Qfloor x.
Proof.
  destruct x as [n d]. unfold Qle, Exact.trunc, Qfloor. simpl. intros Hn.
  apply Z.quot_div_nonneg; lia.
Qed.

Lemma trunc_inject (z : Z) : Exact.trunc (inject_Z z) = z.
Proof. unfold Exact.trunc. simpl. apply Z.quot_1_r. Qed.

Lemma inject_giga_pos : (0 < inject_Z giga)%Q.
Proof. reflexivity. Qed.














(** ** The loop in exact arithmetic *)

Lemma image_stamps_after_write (self : Img2BagConverter Q) (file_path it ct : string)
    (im : Image) (ci : CameraInfo Q) (ts : Z) (wr : SequentialWriter Q) (w : World Q)
    (wr' : SequentialWriter Q) :
  rosbag_writer (after_write self file_path it ct (im, ci) ts wr w) = Some wr' ->
  image_stamps wr'
  = image_stamps wr ++ [(sec (stamp (img_header im)), nanosec (stamp (img_header im)))]
  /\ channels wr' = channels wr /\ uri wr' = uri wr /\ storage_id wr' = storage_id wr.
Proof.
  unfold after_write. cbn [rosbag_writer]. intros E. injection E as <-.
  unfold image_stamps. cbn [records channels uri storage_id].
  rewrite !flat_map_app. cbn [flat_map fst snd]. rewrite !app_nil_r.
  repeat split.
Qed.

Section ExactLoop.

Variable fs : FileSystem.
Variable self : Img2BagConverter Q.
Variables frame_id image_topic camera_info_topic : string.
Hypothesis rate_positive : (0 < rate self)%Q.

Let loop := convert_files fs self frame_id image_topic camera_info_topic.


End ExactLoop.

Section ExactConvert.

Variable fs : FileSystem.
Variable self : Img2BagConverter Q.
Hypothesis rate_positive : (0 < rate self)%Q.
Hypothesis start_nonneg : (0 <= start_timestamp self)%Q.




End ExactConvert.

(** ** The timestamps of a channel *)

Lemma period_pos (r : Q) : (0 < r)%Q -> (0 < inject_Z giga / r)%Q.
Proof. intros Hr. apply Qlt_shift_div_l; [assumption | reflexivity]. Qed.











(** The same run on binary64 numbers stamps the same four timestamps. *)
Lemma fourth_timestamp_at_rate_3_binary64 :
  world_stamps (fst (_convert_image_to_topic sample_fs (timed_converter64 1 3%float)
                       "/data/left" "/cam/left" opened_world))
  = [(1, 0); (1, 333333333); (1, 666666666); (1, 999999999)].
Proof. vm_compute. reflexivity. Qed.

(** ** The channels of a conversion *)








(** ** The calibration record *)




(** On binary64 numbers the intrinsic matrix of a 640 by 480 image is the
    same: the focal length along y is 640. *)
Lemma focal_y_of_640_by_480_binary64 :
  exists d r p,
    get_flatten_calibration_matrices (F := PrimFloat.float) (640, 480)
    = Ok (d, [640; 0; 320; 0; 640; 240; 0; 0; 1]%float, r, p).
Proof. eexists. eexists. eexists. vm_compute. reflexivity. Qed.

(** ** Resizing *)

Lemma trunc_quotient (a b : Z) :
  0 <= a -> 0 < b -> Exact.trunc (inject_Z a / inject_Z b) = a / b.
Proof.
  intros Ha Hb. rewrite trunc_floor.
  - symmetry. apply Zdiv_Qdiv.
  - apply Qle_shift_div_l.
    + change 0%Q with (inject_Z 0). rewrite <- Zlt_Qlt. exact Hb.
    + rewrite Qmult_0_l. change 0%Q with (inject_Z 0). rewrite <- Zle_Qle. exact Ha.
Qed.

Lemma truediv_trunc (a b : Z) :
  0 <= a -> 0 < b ->
  (q <- int_truediv (F := Q) a b ;; to_int q) = Ok (a / b).
Proof.
  intros Ha Hb. change (int_truediv (F := Q) a b) with (Exact.truediv a b).
  unfold Exact.truediv. destruct (Z.eqb_spec b 0) as [E|_]; [lia|].
  cbn [bind]. change (to_int (inject_Z a / inject_Z b)%Q)
    with (Ok (A := Z) (Exact.trunc (inject_Z a / inject_Z b))).
  rewrite trunc_quotient by assumption. reflexivity.
Qed.


Lemma resize_target_height (image : PILImage) (w h : Z) :
  0 < pil_width image -> 0 < pil_height image -> 0 < w -> h <= 0 ->
  resize_target (F := Q) image (w, h)
  = Ok (w, pil_height image * w / pil_width image).
Proof.
  intros HW HH Hw Hh. unfold resize_target. cbn [fst snd].
  destruct (Z.leb_spec w 0) as [E|_]; [lia|].
  destruct (Z.leb_spec h 0) as [_|E]; [|lia].
  pose proof (truediv_trunc (pil_height image * w) (pil_width image) ltac:(nia) HW) as Hq.
  unfold bind in *.
  destruct (int_truediv (pil_height image * w) (pil_width image)) as [q|e];
    [|discriminate Hq].
  rewrite Hq. reflexivity.
Qed.







(** ** The order of the files *)





Section StableSort.

Context {A : Type}.
Variable lt : A -> A -> bool.
Hypothesis lt_asym : forall a b, lt a b = true -> lt b a = false.






End StableSort.




(** ** The natural sort key *)

Lemma forall_chars_app (p : ascii -> bool) (s t : string) :
  forall_chars p (s ++ t) = forall_chars p s && forall_chars p t.
Proof.
  induction s as [|a s IH]; [reflexivity|]. simpl. rewrite IH, andb_assoc. reflexivity.
Qed.

Lemma app_not_empty (s : string) (a : ascii) : (s ++ String a EmptyString)%string <> EmptyString.
Proof. destruct s; discriminate. Qed.




Lemma digit_not_space (a : ascii) : is_digit a = true -> is_space a = false.
Proof. destruct a as [[] [] [] [] [] [] [] []]; (reflexivity || discriminate). Qed.

Lemma digit_not_sign (a : ascii) : is_digit a = true -> is_sign a = false.
Proof. destruct a as [[] [] [] [] [] [] [] []]; (reflexivity || discriminate). Qed.

Lemma rstrip_spaces_digits (s : string) :
  all_digit s = true -> rstrip_spaces s = s.
Proof.
  induction s as [|a s IH]; [reflexivity|]. unfold all_digit. simpl.
  intros Hs. apply andb_true_iff in Hs. destruct Hs as [Ha Hs].
  rewrite (IH Hs), (digit_not_space a Ha). reflexivity.
Qed.

Lemma span_digits_all (s : string) :
  forall acc n, all_digit s = true ->
    exists v, span_digits s acc n = (v, (n + String.length s)%nat, EmptyString).
Proof.
  induction s as [|a s IH]; intros acc n Hs.
  - exists acc. simpl. rewrite Nat.add_0_r. reflexivity.
  - unfold all_digit in Hs. simpl in Hs. apply andb_true_iff in Hs. destruct Hs as [Ha Hs].
    cbn [span_digits]. rewrite Ha. destruct (IH (10 * acc + digit_value a) (S n) Hs) as [v Hv].
    exists v. rewrite Hv. cbn [String.length]. f_equal. f_equal. lia.
Qed.











(** *** Decimal numerals *)

Lemma uint_digits (d : Decimal.uint) : all_digit (NilEmpty.string_of_uint d) = true.
Proof. induction d; simpl; try reflexivity; exact IHd. Qed.

Lemma span_digits_uint (d : Decimal.uint) :
  forall (acc n : nat),
    fst (fst (span_digits (NilEmpty.string_of_uint d) (Z.of_nat acc) n))
    = Z.of_nat (Nat.of_uint_acc d acc).
Proof.
  induction d; intros acc n; cbn [NilEmpty.string_of_uint Nat.of_uint_acc span_digits];
    try reflexivity;
    match goal with
    | |- context [is_digit ?c] => change (is_digit c) with true; cbv iota
    end;
    match goal with
    | |- fst (fst (span_digits _ ?z _)) = Z.of_nat (Nat.of_uint_acc _ ?m) =>
        replace z with (Z.of_nat m)
          by (rewrite ?Nat.tail_mul_spec; unfold digit_value; simpl N_of_ascii; lia);
        apply IHd
    end.
Qed.

Lemma py_int_value (d : string) :
  all_digit d = true -> d <> EmptyString ->
  py_int d = Ok (fst (fst (span_digits d 0 O))).
Proof.
  intros Hd Hne. destruct d as [|a d]; [contradiction|].
  assert (Ha : is_digit a = true).
  { unfold all_digit in Hd. simpl in Hd. apply andb_true_iff in Hd. apply Hd. }
  unfold py_int.
  assert (E : lstrip_spaces (String a d) = String a d).
  { simpl. rewrite (digit_not_space a Ha). reflexivity. }
  rewrite E, (rstrip_spaces_digits _ Hd), (digit_not_sign a Ha).
  destruct (span_digits_all (String a d) 0 O Hd) as [v Hv]. rewrite Hv.
  reflexivity.
Qed.

Lemma string_of_nat_digits (n : nat) :
  all_digit (string_of_nat n) = true /\ string_of_nat n <> EmptyString.
Proof.
  unfold string_of_nat, NilZero.string_of_uint.
  destruct (Nat.to_uint n) eqn:E; try (split; [reflexivity | discriminate]);
    (split; [apply (uint_digits (_ u)) | discriminate]).
Qed.

(** [int(str(n))] is [n]. *)
Lemma py_int_string_of_nat (n : nat) : py_int (string_of_nat n) = Ok (Z.of_nat n).
Proof.
  destruct (string_of_nat_digits n) as [Hd Hne].
  rewrite (py_int_value _ Hd Hne). f_equal.
  rewrite <- (DecimalNat.Unsigned.of_to n) at 2.
  unfold string_of_nat, NilZero.string_of_uint, Nat.of_uint.
  destruct (Nat.to_uint n) eqn:E; try reflexivity;
    exact (span_digits_uint _ O O).
Qed.

(** *** The first number of a name *)








(** ** Timestamps of either sign *)




(** ** The calibration arrays *)

(** X4.  Whatever the numbers are, when the calibration matrices of an
    image size are computed, the distortion is five zeros, the flattened
    intrinsic and rotation matrices have nine entries and the flattened
    projection matrix twelve; the rotation is the identity; the intrinsic
    matrix has the width as its first entry, zeros off its diagonal and its
    last column, and 1 as its last entry; and the projection matrix is the
    intrinsic matrix with a zero after each of its rows. *)
Theorem calibration_arrays_shape {F : Type} `{PyFloat F} (imgsz : Z * Z)
    (d k r p : list F) :
  get_flatten_calibration_matrices imgsz = Ok (d, k, r, p) ->
  let O := of_int 0 in
  let I := of_int 1 in
  d = [O; O; O; O; O]
  /\ r = [I; O; O; O; I; O; O; O; I]
  /\ (exists cx fy cy,
        k = [of_int (fst imgsz); O; cx; O; fy; cy; O; O; I]
        /\ p = [of_int (fst imgsz); O; cx; O; O; fy; cy; O; O; O; I; O])
  /\ List.length d = 5%nat /\ List.length k = 9%nat
  /\ List.length r = 9%nat /\ List.length p = 12%nat.
Proof.
  unfold get_flatten_calibration_matrices.
  destruct (int_truediv (snd imgsz) (fst imgsz)) as [aspect_ratio|e]; [|cbn [bind]; discriminate].
  cbn [bind].
  destruct (int_truediv (fst imgsz) 2) as [cx|e]; [|cbn [bind]; discriminate]. cbn [bind].
  destruct (fdiv (of_int (snd imgsz)) aspect_ratio) as [fy|e]; [|cbn [bind]; discriminate]. cbn [bind].
  destruct (int_truediv (snd imgsz) 2) as [cy|e]; [|cbn [bind]; discriminate]. cbn [bind].
  intros E. injection E as <- <- <- <-.
  split; [reflexivity|]. split; [reflexivity|].
  split; [exists cx, fy, cy; split; reflexivity|].
  repeat split; reflexivity.
Qed.

(** The arrays of a 640 by 480 image. *)
Lemma calibration_arrays_shape_witness :
  exists d k r p,
    get_flatten_calibration_matrices (F := Q) (640, 480) = Ok (d, k, r, p)
    /\ List.length d = 5%nat /\ List.length k = 9%nat
    /\ List.length r = 9%nat /\ List.length p = 12%nat.
Proof.
  destruct (get_flatten_calibration_matrices (F := Q) (640, 480))
    as [[[[d k] r] p]|e] eqn:E; [|vm_compute in E; discriminate E].
  exists d, k, r, p. split; [reflexivity|].
  apply (calibration_arrays_shape (640, 480) d k r p E).
Defined.



(** ** A run that stops *)

Section Stops.

Context {F : Type} `{PyFloat F}.
Variable fs : FileSystem.
Variable self : Img2BagConverter F.
Variables frame_id image_topic camera_info_topic : string.

Let loop := convert_files fs self frame_id image_topic camera_info_topic.

(** An exception that is not caught leaves the loop where the file was
    opened. *)
Lemma convert_files_raise (file_path : string) (files : list string)
    (cursor : Z * Z) (e : exn) (w : World F) :
  create_messages fs self file_path (header_at frame_id cursor) = Raise e ->
  is_caught caught_classes e = false ->
  loop (file_path :: files) cursor w = (after_read self file_path w, Raise e).
Proof.
  intros He Hc. unfold loop. rewrite convert_files_cons.
  unfold bindM at 1. rewrite verbose_print_console.
  unfold try_except, _create_image_camera_info_messages, bindM, fs_read, lift.
  rewrite He, Hc. reflexivity.
Qed.


End Stops.

(** X6.  In exact arithmetic, when the target size is a width w > 0
    with the height left to the aspect ratio, and the file is an image W
    wide and H high with H * w < W, the height computed for it is 0,
    [Image.resize] refuses it with [ValueError], and that exception is not
    among those the loop catches: the loop stops at this file with the
    exception, having written nothing for it, and the files after it are
    not opened. *)
Theorem flat_image_stops_the_loop (fs : FileSystem) (self : Img2BagConverter Q)
    (frame_id image_topic camera_info_topic : string) (file_path : string)
    (files : list string) (cursor : Z * Z) (w : World Q) (img : PILImage) (width : Z) :
  imgsz self = Some (width, 0) -> 0 < width ->
  PIL_open fs file_path = Ok img ->
  0 < pil_width img -> 0 < pil_height img ->
  pil_height img * width < pil_width img ->
  resize_target (F := Q) img (width, 0) = Ok (width, 0)
  /\ convert_files fs self frame_id image_topic camera_info_topic
       (file_path :: files) cursor w
     = (after_read self file_path w, Raise empty_size)
  /\ exn_cls empty_size = ValueError.
Proof.
  intros Hsz Hw Hopen HW HH Hflat.
  assert (Ht : resize_target (F := Q) img (width, 0) = Ok (width, 0)).
  { rewrite (resize_target_height img width 0 HW HH Hw) by lia.
    rewrite Z.div_small by lia. reflexivity. }
  split; [exact Ht|]. split; [|reflexivity].
  apply convert_files_raise; [|reflexivity].
  unfold create_messages, load_image. rewrite Hopen. cbn [bind]. rewrite Hsz.
  unfold resize_image. rewrite Ht. cbn [bind]. unfold PIL_resize. cbn [fst snd].
  change (0 <? 1) with true. rewrite orb_true_r. reflexivity.
Qed.

(** A 1920 by 1080 image and the target width 1. *)
Lemma flat_image_stops_the_loop_witness :
  convert_files sample_fs (set_image_size (Some (1, 0)) (sample_converter "camera_info"))
    "cam" "/cam/left" "/cam/camera_info"
    ["/data/left/img1.png"; "/data/left/img2.png"] (100, 0) opened_world
  = (after_read (set_image_size (Some (1, 0)) (sample_converter "camera_info"))
       "/data/left/img1.png" opened_world,
     Raise empty_size).
Proof.
  refine (proj1 (proj2
    (flat_image_stops_the_loop sample_fs
       (set_image_size (Some (1, 0)) (sample_converter "camera_info"))
       "cam" "/cam/left" "/cam/camera_info" "/data/left/img1.png"
       ["/data/left/img2.png"] (100, 0) opened_world (sample_image "RGB") 1
       eq_refl eq_refl eq_refl eq_refl eq_refl eq_refl))).
Defined.




(** ** Runs that differ in what they print *)

Section Agree.

Context {F : Type}.

Lemma agree_ret {A : Type} (a : A) : agree (F := F) (ret a) (ret a).
Proof. intros w v Hwv. split; [reflexivity | exact Hwv]. Qed.

Lemma agree_lift {A : Type} (r : result A) : agree (F := F) (lift r) (lift r).
Proof. intros w v Hwv. split; [reflexivity | exact Hwv]. Qed.

Lemma agree_bind {A B : Type} (m1 m2 : M F A) (k1 k2 : A -> M F B) :
  agree m1 m2 -> (forall a, agree (k1 a) (k2 a)) -> agree (bindM m1 k1) (bindM m2 k2).
Proof.
  intros Hm Hk w v Hwv. unfold bindM.
  destruct (Hm w v Hwv) as [Hr Hs].
  destruct (m1 w) as [w1 r1], (m2 v) as [v1 r2]. simpl in Hr, Hs. subst r2.
  destruct r1 as [a|e]; [apply Hk; exact Hs | split; [reflexivity | exact Hs]].
Qed.

(** Printing changes the console only. *)
Lemma agree_rprint (l1 l2 : string) : agree (F := F) (rprint l1) (rprint l2).
Proof. intros w v Hwv. split; [reflexivity | exact Hwv]. Qed.

Lemma agree_rprint_l (line : string) : agree (F := F) (rprint line) (ret tt).
Proof. intros w v Hwv. split; [reflexivity | exact Hwv]. Qed.

Lemma agree_rprint_r (line : string) : agree (F := F) (ret tt) (rprint line).
Proof. intros w v Hwv. split; [reflexivity | exact Hwv]. Qed.

Lemma agree_fs_read (path : string) : agree (F := F) (fs_read path) (fs_read path).
Proof.
  intros w v [Hb [Hh [He Hf]]]. split; [reflexivity|].
  unfold fs_read, same_bag. simpl. rewrite Hf. repeat split; assumption.
Qed.

Lemma agree_set_writer (wr : option (SequentialWriter F)) (held : bool) :
  agree (set_writer wr held) (set_writer wr held).
Proof.
  intros w v [Hb [Hh [He Hf]]]. split; [reflexivity|].
  unfold set_writer, same_bag. simpl. repeat split; assumption.
Qed.

Lemma agree_update_writer (f : SequentialWriter F -> SequentialWriter F) :
  agree (update_writer f) (update_writer f).
Proof.
  intros w v Hwv. pose proof Hwv as [Hb [Hh [He Hf]]]. unfold update_writer.
  rewrite <- Hb, <- Hh. destruct (rosbag_writer w) as [wr|].
  - apply agree_set_writer, Hwv.
  - split; [reflexivity | exact Hwv].
Qed.

Lemma agree_try_except {A B : Type} (body1 body2 : M F A) (classes : list exn_class)
    (handler1 handler2 : exn -> M F B) (rest1 rest2 : A -> M F B) :
  agree body1 body2 ->
  (forall e, agree (handler1 e) (handler2 e)) ->
  (forall a, agree (rest1 a) (rest2 a)) ->
  agree (try_except body1 classes handler1 rest1)
        (try_except body2 classes handler2 rest2).
Proof.
  intros Hb Hh Hr w v Hwv. unfold try_except.
  destruct (Hb w v Hwv) as [Hres Hs].
  destruct (body1 w) as [w1 r1], (body2 v) as [v1 r2]. simpl in Hres, Hs. subst r2.
  destruct r1 as [a|e]; [apply Hr; exact Hs|].
  destruct (is_caught classes e); [apply Hh; exact Hs | split; [reflexivity | exact Hs]].
Qed.

Lemma agree_for_each {A : Type} (body1 body2 : A -> M F unit) (l : list A) :
  (forall a, agree (body1 a) (body2 a)) -> agree (for_each body1 l) (for_each body2 l).
Proof.
  intros Hb. induction l as [|a l IH]; [apply agree_ret|].
  simpl. apply agree_bind; [apply Hb | intros _; exact IH].
Qed.

End Agree.

Section Verbosity.

Context {F : Type} `{PyFloat F}.
Variable fs : FileSystem.
Variable self : Img2BagConverter F.
Variable value : bool.

Lemma convert_files_agree (frame_id image_topic camera_info_topic : string)
    (files : list string) :
  forall cursor,
    agree (convert_files fs (set_verbose value self) frame_id image_topic
             camera_info_topic files cursor)
          (convert_files fs self frame_id image_topic camera_info_topic files cursor).
Proof.
  induction files as [|file_path files IH]; intros cursor; [apply agree_ret|].
  rewrite !convert_files_cons. apply agree_bind.
  - cbn [verbose set_verbose].
    destruct value, (verbose self);
      auto using agree_rprint, agree_rprint_l, agree_rprint_r, agree_ret.
  - intros _. apply agree_try_except.
    + unfold _create_image_camera_info_messages.
      apply agree_bind; [apply agree_fs_read | intros _; apply agree_lift].
    + intros e. apply agree_bind; [apply agree_rprint | intros _; apply IH].
    + intros msgs. apply agree_bind; [apply agree_lift|]. intros ts.
      apply agree_bind; [apply agree_update_writer|]. intros _.
      apply agree_bind; [apply agree_update_writer|]. intros _.
      apply agree_bind; [apply agree_lift|]. intros cursor'. apply IH.
Qed.

Lemma convert_image_to_topic_agree (image_dir topic : string) :
  agree (_convert_image_to_topic fs (set_verbose value self) image_dir topic)
        (_convert_image_to_topic fs self image_dir topic).
Proof.
  unfold _convert_image_to_topic.
  apply agree_bind.
  - unfold _register_topics.
    apply agree_bind; [apply agree_update_writer|]. intros _.
    apply agree_bind; [apply agree_update_writer|]. intros _. apply agree_ret.
  - intros names. apply agree_bind; [apply agree_lift|]. intros cursor.
    apply agree_bind; [apply agree_fs_read|]. intros _.
    apply agree_bind; [apply agree_lift|]. intros entries.
    apply convert_files_agree.
Qed.

End Verbosity.

(** X8.  Whatever the numbers are, a conversion with [verbose] set to
    any value returns or raises as the conversion with the flag left as it
    is does, creates the same container with the same channels and
    records, leaves the same error stream and opens the same paths in the
    same order: the flag changes only what is printed. *)
Theorem verbose_changes_only_the_console {F : Type} `{PyFloat F} (fs : FileSystem)
    (self : Img2BagConverter F) (value : bool) (output : string) (w : World F) :
  snd (convert fs (set_verbose value self) output w) = snd (convert fs self output w)
  /\ same_bag (fst (convert fs (set_verbose value self) output w))
              (fst (convert fs self output w)).
Proof.
  assert (Ha : agree (convert fs (set_verbose value self) output)
                     (convert fs self output)).
  { unfold convert. apply agree_bind; [apply agree_set_writer|]. intros _.
    apply agree_bind.
    - apply agree_for_each. intros pair. apply convert_image_to_topic_agree.
    - intros _. apply agree_bind; [apply agree_rprint|]. intros _.
      intros w1 v1 Hwv. pose proof Hwv as [Hb _]. rewrite Hb.
      apply agree_set_writer, Hwv. }
  apply Ha. repeat split.
Qed.

(** ** What a run leaves in place *)

Lemma extends_refl {A : Type} (l : list A) : extends l l.
Proof. exists []. symmetry. apply app_nil_r. Qed.

Lemma extends_trans {A : Type} (l1 l2 l3 : list A) :
  extends l1 l2 -> extends l2 l3 -> extends l1 l3.
Proof. intros [a ->] [b ->]. exists (a ++ b). symmetry. apply app_assoc. Qed.

Lemma extends_app {A : Type} (l more : list A) : extends l (l ++ more).
Proof. exists more. reflexivity. Qed.

Lemma paired_app {F : Type} (l1 l2 : list (string * Message F * Z)) :
  paired l1 -> paired l2 -> paired (l1 ++ l2).
Proof.
  induction 1 as [|it ct im ci ts rest Hh Hht Hwd Hrest IH]; intros H2; [exact H2|].
  simpl. constructor; auto.
Qed.

Lemma grows_refl {F : Type} (w : World F) : grows w w.
Proof.
  unfold grows. repeat split; try apply extends_refl.
  destruct (rosbag_writer w) as [wr|]; [|reflexivity].
  exists wr. repeat split; try apply extends_refl.
  exists []. split; [symmetry; apply app_nil_r | constructor].
Qed.

Lemma grows_trans {F : Type} (w1 w2 w3 : World F) :
  grows w1 w2 -> grows w2 w3 -> grows w1 w3.
Proof.
  intros [Hh1 [He1 [Hc1 [Hf1 Hb1]]]] [Hh2 [He2 [Hc2 [Hf2 Hb2]]]].
  unfold grows.
  split; [congruence|]. split; [congruence|].
  split; [eapply extends_trans; eassumption|].
  split; [eapply extends_trans; eassumption|].
  destruct (rosbag_writer w1) as [wr1|].
  - destruct Hb1 as [wr2 [E2 [Hu1 [Hs1 [Hch1 [new1 [Hr1 Hp1]]]]]]].
    rewrite E2 in Hb2.
    destruct Hb2 as [wr3 [E3 [Hu2 [Hs2 [Hch2 [new2 [Hr2 Hp2]]]]]]].
    exists wr3. split; [exact E3|]. split; [congruence|]. split; [congruence|].
    split; [eapply extends_trans; eassumption|].
    exists (new1 ++ new2). split; [|apply paired_app; assumption].
    rewrite Hr2, Hr1, app_assoc. reflexivity.
  - rewrite Hb1 in Hb2. exact Hb2.
Qed.

(** Printing and opening a path. *)
Lemma grows_console {F : Type} (w : World F) (lines : list string) (paths : list string) :
  grows w {| rosbag_writer := rosbag_writer w;
             writer_held := writer_held w;
             console := console w ++ lines;
             stderr := stderr w;
             fs_reads := fs_reads w ++ paths |}.
Proof.
  unfold grows. cbn [writer_held stderr console fs_reads rosbag_writer].
  repeat split; try apply extends_app.
  destruct (rosbag_writer w) as [wr|]; [|reflexivity].
  exists wr. repeat split; try apply extends_refl.
  exists []. split; [symmetry; apply app_nil_r | constructor].
Qed.

Lemma grows_rprint {F : Type} (line : string) (w : World F) :
  grows w (fst (rprint line w)).
Proof.
  unfold rprint. cbn [fst].
  rewrite <- (app_nil_r (fs_reads w)) at 1. apply grows_console.
Qed.

Lemma grows_fs_read {F : Type} (path : string) (w : World F) :
  grows w (fst (fs_read path w)).
Proof.
  unfold fs_read. cbn [fst].
  rewrite <- (app_nil_r (console w)) at 1. apply grows_console.
Qed.

Lemma add_channel_extends (meta : TopicMetadata) (l : list TopicMetadata) :
  extends l (add_channel meta l).
Proof.
  unfold add_channel. destruct (existsb _ l); [apply extends_refl | apply extends_app].
Qed.

Lemma grows_create_topic {F : Type} (meta : TopicMetadata) (w : World F) :
  grows w (fst (create_topic meta w)).
Proof.
  unfold create_topic, update_writer, set_writer.
  destruct (rosbag_writer w) as [wr|] eqn:E; [|apply grows_refl].
  unfold grows. cbn [fst writer_held stderr console fs_reads rosbag_writer].
  rewrite E. repeat split; try apply extends_refl.
  eexists. split; [reflexivity|]. cbn [uri storage_id channels records].
  repeat split; [apply add_channel_extends|].
  exists []. split; [symmetry; apply app_nil_r | constructor].
Qed.

Section Grows.

Context {F : Type} `{PyFloat F}.
Variable fs : FileSystem.
Variable self : Img2BagConverter F.

(** The two messages of a file carry the header they were made for and
    the size of the image. *)
Lemma create_messages_pair (file_path : string) (header : Header)
    (im : Image) (ci : CameraInfo F) :
  create_messages fs self file_path header = Ok (im, ci) ->
  img_header im = header /\ ci_header ci = header
  /\ img_height im = ci_height ci /\ img_width im = ci_width ci.
Proof.
  unfold create_messages.
  destruct (load_image fs self file_path) as [img|e]; [|discriminate]. cbn [bind].
  destruct (negb (dict_in (mode img) image_encoding_map)); [discriminate|].
  destruct (get_flatten_calibration_matrices (size img)) as [[[[d k] r] p]|e];
    [|discriminate].
  cbn [bind]. intros E. injection E as <- <-. repeat split.
Qed.

(** The world after the two messages of a file have been written. *)
Lemma grows_after_write (file_path image_topic camera_info_topic : string)
    (header : Header) (im : Image) (ci : CameraInfo F) (ts : Z)
    (wr : SequentialWriter F) (w : World F) :
  create_messages fs self file_path header = Ok (im, ci) ->
  rosbag_writer w = Some wr ->
  grows w (after_write self file_path image_topic camera_info_topic (im, ci) ts wr w).
Proof.
  intros Hm Hw. destruct (create_messages_pair _ _ _ _ Hm) as [Hi [Hc [Hht Hwd]]].
  unfold grows, after_write. cbn [writer_held stderr console fs_reads rosbag_writer].
  rewrite Hw. repeat split; try apply extends_app.
  eexists. split; [reflexivity|]. cbn [uri storage_id channels records fst snd].
  repeat split; [apply extends_refl|].
  exists [(image_topic, ImageMsg im, ts); (camera_info_topic, CameraInfoMsg ci, ts)].
  split; [rewrite <- app_assoc; reflexivity|].
  constructor; [congruence | assumption | assumption | constructor].
Qed.

Lemma convert_files_grows (frame_id image_topic camera_info_topic : string)
    (files : list string) :
  forall cursor w,
    grows w (fst (convert_files fs self frame_id image_topic camera_info_topic
                    files cursor w)).
Proof.
  induction files as [|file_path files IH]; intros cursor w; [apply grows_refl|].
  rewrite convert_files_cons. unfold bindM at 1. rewrite verbose_print_console.
  unfold try_except, _create_image_camera_info_messages, bindM, fs_read, lift.
  cbv beta iota. cbn [rosbag_writer writer_held console stderr fs_reads].
  destruct (create_messages fs self file_path (header_at frame_id cursor))
    as [[im ci]|e] eqn:Hm.
  - destruct (to_int _) as [ts|e]; [|apply grows_console].
    unfold write, update_writer, set_writer.
    cbn [rosbag_writer writer_held console stderr fs_reads fst snd].
    destruct (rosbag_writer w) as [wr|] eqn:Hw;
      [|cbn [fst]; rewrite <- Hw; apply grows_console].
    cbn [rosbag_writer writer_held console stderr fs_reads uri storage_id channels records].
    pose proof (grows_after_write file_path image_topic camera_info_topic _ im ci ts wr w
                  Hm Hw) as Hg.
    unfold after_write in Hg. cbn [fst snd] in Hg.
    destruct (advance self cursor) as [cursor'|e].
    + eapply grows_trans; [exact Hg | apply IH].
    + exact Hg.
  - destruct (is_caught caught_classes e); [|apply grows_console].
    eapply grows_trans; [|apply IH].
    unfold rprint. cbn [fst rosbag_writer writer_held console stderr fs_reads].
    rewrite <- app_assoc. apply grows_console.
Qed.

Lemma grows_bind {A B : Type} (m : M F A) (k : A -> M F B) (w : World F) :
  grows w (fst (m w)) -> (forall a v, grows v (fst (k a v))) ->
  grows w (fst (bindM m k w)).
Proof.
  intros Hm Hk. unfold bindM. destruct (m w) as [w1 [a|e]]; cbn [fst] in *.
  - eapply grows_trans; [exact Hm | apply Hk].
  - exact Hm.
Qed.

Lemma register_topics_grows (frame_id topic : string) (w : World F) :
  grows w (fst (_register_topics self frame_id topic w)).
Proof.
  unfold _register_topics.
  apply grows_bind; [apply grows_create_topic|]. intros _ v.
  apply grows_bind; [apply grows_create_topic|]. intros _ v'. apply grows_refl.
Qed.

Lemma convert_image_to_topic_grows (image_dir topic : string) (w : World F) :
  grows w (fst (_convert_image_to_topic fs self image_dir topic w)).
Proof.
  unfold _convert_image_to_topic.
  apply grows_bind; [apply register_topics_grows|]. intros names v.
  apply grows_bind; [apply grows_refl|]. intros cursor v1.
  apply grows_bind; [apply grows_fs_read|]. intros _ v2.
  apply grows_bind; [apply grows_refl|]. intros entries v3.
  apply convert_files_grows.
Qed.

Lemma for_each_grows {A : Type} (body : A -> M F unit) (l : list A) :
  (forall a v, grows v (fst (body a v))) ->
  forall w, grows w (fst (for_each body l w)).
Proof.
  intros Hb. induction l as [|a l IH]; intros w; [apply grows_refl|].
  simpl. apply grows_bind; [apply Hb | intros _ v; apply IH].
Qed.

End Grows.

(** X9.  Whatever the numbers are and however the conversion of a
    directory ends, it only adds to what is there: the channels and the
    records of the open container go on from those it had, the new
    records come two by two, an image message and then a calibration
    message with the same header, the same size and the same time, the
    console and the list of opened paths go on, and the error stream, the
    hold on the writer, the address and the storage format of the
    container stay as they were. *)
Theorem convert_image_to_topic_only_appends {F : Type} `{PyFloat F} (fs : FileSystem)
    (self : Img2BagConverter F) (image_dir topic : string) (w : World F) :
  grows w (fst (_convert_image_to_topic fs self image_dir topic w)).
Proof. apply convert_image_to_topic_grows. Qed.

(** ** How a conversion ends *)

Section Ends.

Context {F : Type} `{PyFloat F}.
Variable fs : FileSystem.

(** The world in which [convert] has opened its writer, and what the
    loop over the directories makes of it. *)
Lemma convert_run (self : Img2BagConverter F) (output : string) (w : World F) :
  exists w1 wr r,
    for_each (fun pair => _convert_image_to_topic fs self (fst pair) (snd pair))
      (image_topic_pairs self)
      (fst (set_writer (Some {| uri := output; storage_id := conv_storage_id self;
                                channels := []; records := [] |}) true w))
    = (w1, r)
    /\ rosbag_writer w1 = Some wr
    /\ uri wr = output /\ storage_id wr = conv_storage_id self
    /\ paired (records wr)
    /\ writer_held w1 = true
    /\ stderr w1 = stderr w
    /\ extends (console w) (console w1)
    /\ extends (fs_reads w) (fs_reads w1).
Proof.
  set (w0 := fst (set_writer _ true w)).
  pose proof (for_each_grows
                (fun pair => _convert_image_to_topic fs self (fst pair) (snd pair))
                (image_topic_pairs self)
                (fun pair v => convert_image_to_topic_grows fs self (fst pair) (snd pair) v)
                w0) as Hg.
  destruct (for_each _ (image_topic_pairs self) w0) as [w1 r]. cbn [fst] in Hg.
  destruct Hg as [Hh [He [Hc [Hf Hb]]]].
  unfold w0, set_writer in Hb, Hh, He, Hc, Hf.
  cbn [fst rosbag_writer writer_held stderr console fs_reads] in Hb, Hh, He, Hc, Hf.
  destruct Hb as [wr [Hw [Hu [Hs [_ [new [Hr Hp]]]]]]].
  cbn [uri storage_id records] in Hu, Hs, Hr.
  exists w1, wr, r. split; [reflexivity|].
  repeat split; try assumption. rewrite Hr. exact Hp.
Qed.

End Ends.

(** [convert], however it ends. *)
Lemma convert_ends {F : Type} `{PyFloat F} (fs : FileSystem)
    (self : Img2BagConverter F) (output : string) (w : World F) :
  exists w' wr r,
    convert fs self output w = (w', r)
    /\ rosbag_writer w' = Some wr
    /\ uri wr = output /\ storage_id wr = conv_storage_id self
    /\ paired (records wr)
    /\ stderr w' = stderr w
    /\ extends (fs_reads w) (fs_reads w')
    /\ exists lines,
         match r with
         | Ok _ => writer_held w' = false
                   /\ console w' = (console w ++ lines) ++ [saved_line output]
         | Raise _ => writer_held w' = true /\ console w' = console w ++ lines
         end.
Proof.
  destruct (convert_run fs self output w)
    as [w1 [wr [r [Hrun [Hw [Hu [Hs [Hp [Hh [He [[lines Hc] Hf]]]]]]]]]]].
  unfold convert. unfold bindM at 1. cbn [set_writer].
  unfold set_writer at 1 in Hrun. cbn [fst] in Hrun.
  unfold bindM at 1. rewrite Hrun.
  destruct r as [[]|e].
  - unfold bindM, rprint, set_writer.
    cbn [rosbag_writer writer_held console stderr fs_reads].
    eexists _, wr, (Ok tt). split; [reflexivity|].
    cbn [rosbag_writer writer_held console stderr fs_reads].
    repeat split; try assumption.
    exists lines. split; [reflexivity|]. rewrite Hc. reflexivity.
  - exists w1, wr, (Raise e). split; [reflexivity|].
    repeat split; try assumption.
    exists lines. split; assumption.
Qed.


(** X11.  Whatever the numbers are, [main] returns 0 or 1.  When it
    returns 0, nothing has been written on the error stream, the writer
    has been released, the container has the output path as its address
    and the storage format of the arguments, its records come two by two,
    and the last line printed names the output path.  When it returns 1,
    exactly one piece of text has been written on the error stream. *)
Theorem main_exit_status {F : Type} `{PyFloat F} (fs : FileSystem) (now : F)
    (args : Namespace F) (w : World F) :
  exists w' code,
    main fs now args w = (w', code)
    /\ ((code = 0
         /\ stderr w' = stderr w
         /\ writer_held w' = false
         /\ exists wr lines,
              rosbag_writer w' = Some wr
              /\ uri wr = output args /\ storage_id wr = format args
              /\ paired (records wr)
              /\ console w' = (console w ++ lines) ++ [saved_line (output args)])
        \/ (code = 1 /\ exists text, stderr w' = stderr w ++ [text])).
Proof.
  unfold main, main_body. unfold bindM at 1, lift at 1.
  destruct (_parse_image_topic_pairs (directories args) (topics args)) as [pairs|e].
  - unfold bindM at 1, lift at 1.
    destruct (_parse_image_size (image_size args)) as [sz|e].
    + match goal with
      | |- context [convert fs ?c (output args) w] =>
          destruct (convert_ends fs c (output args) w)
            as [w1 [wr [r [Hrun [Hw [Hu [Hs [Hp [He [_ [lines Hr]]]]]]]]]]]
      end.
      rewrite Hrun. destruct r as [[]|e].
      * exists w1, 0. split; [reflexivity|]. left. destruct Hr as [Hh Hc].
        split; [reflexivity|]. split; [exact He|]. split; [exact Hh|].
        exists wr, lines. repeat split; assumption.
      * destruct (exn_cls e); eexists _, 1; (split; [reflexivity|]); right;
          (split; [reflexivity|]); eexists; unfold stderr_write; cbn [fst stderr];
          rewrite He; reflexivity.
    + destruct (exn_cls e); eexists _, 1; (split; [reflexivity|]); right;
        (split; [reflexivity|]); eexists; reflexivity.
  - destruct (exn_cls e); eexists _, 1; (split; [reflexivity|]); right;
      (split; [reflexivity|]); eexists; reflexivity.
Qed.

(** ** The command line *)





(** *** Image sizes *)

Lemma chomp_cases (v : string) : exists nl, line_end nl /\ v = (chomp v ++ nl)%string.
Proof.
  induction v as [|a v IH].
  - exists EmptyString. split; [left; reflexivity | reflexivity].
  - destruct v as [|b v].
    + simpl. destruct (Ascii.eqb_spec a (ascii_of_nat 10)) as [->|_].
      * exists newline. split; [right; reflexivity | reflexivity].
      * exists EmptyString. split; [left; reflexivity | reflexivity].
    + destruct IH as [nl [Hnl E]]. exists nl. split; [exact Hnl|].
      change (chomp (String a (String b v))) with (String a (chomp (String b v))).
      rewrite E at 1. reflexivity.
Qed.

Lemma span_spec (p : ascii -> bool) (s : string) :
  s = (fst (span p s) ++ snd (span p s))%string
  /\ forall_chars p (fst (span p s)) = true.
Proof.
  induction s as [|a s [IH1 IH2]]; [split; reflexivity|].
  simpl. destruct (p a) eqn:Ha; [|split; reflexivity].
  destruct (span p s) as [h t]. simpl in *. rewrite Ha, IH2. split; [|reflexivity].
  rewrite <- IH1. reflexivity.
Qed.

Lemma digit_not_separator (a : ascii) : is_digit a = true -> is_size_separator a = false.
Proof. destruct a as [[] [] [] [] [] [] [] []]; (reflexivity || discriminate). Qed.

Lemma re_split_not_nil (sep : ascii -> bool) (s : string) : re_split sep s <> [].
Proof.
  induction s as [|a s IH]; [discriminate|]. simpl.
  destruct (sep a); [discriminate|]. destruct (re_split sep s); discriminate.
Qed.

(** The fields of a numeral followed by anything. *)
Lemma re_split_digits (d s : string) :
  all_digit d = true ->
  re_split is_size_separator (d ++ s)
  = (d ++ hd EmptyString (re_split is_size_separator s))%string
    :: tl (re_split is_size_separator s).
Proof.
  induction d as [|a d IH]; intros Hd.
  - simpl. pose proof (re_split_not_nil is_size_separator s).
    destruct (re_split is_size_separator s); [contradiction | reflexivity].
  - unfold all_digit in Hd. simpl in Hd. apply andb_true_iff in Hd. destruct Hd as [Ha Hd].
    simpl. rewrite (digit_not_separator a Ha), (IH Hd). reflexivity.
Qed.

Lemma re_split_line_end (nl : string) :
  line_end nl -> re_split is_size_separator nl = [nl].
Proof. intros [->| ->]; reflexivity. Qed.

Lemma rstrip_spaces_line_end (d nl : string) :
  all_digit d = true -> line_end nl -> rstrip_spaces (d ++ nl) = d.
Proof.
  intros Hd Hnl. induction d as [|a d IH].
  - destruct Hnl as [->| ->]; reflexivity.
  - unfold all_digit in Hd. simpl in Hd. apply andb_true_iff in Hd. destruct Hd as [Ha Hd].
    simpl. rewrite (IH Hd), (digit_not_space a Ha). reflexivity.
Qed.

Lemma span_digits_nonneg (s : string) :
  forall acc n, 0 <= acc -> 0 <= fst (fst (span_digits s acc n)).
Proof.
  induction s as [|a s IH]; intros acc n Hacc; [exact Hacc|].
  cbn [span_digits]. destruct (is_digit a) eqn:Ha; [|exact Hacc].
  apply IH. unfold digit_value.
  destruct a as [[] [] [] [] [] [] [] []]; try discriminate Ha; simpl N_of_ascii; lia.
Qed.

(** [int] reads a numeral followed by a newline. *)
Lemma py_int_line (d nl : string) :
  all_digit d = true -> d <> EmptyString -> line_end nl ->
  py_int (d ++ nl) = Ok (fst (fst (span_digits d 0 O))).
Proof.
  intros Hd Hne Hnl. destruct d as [|a d]; [contradiction|].
  assert (Ha : is_digit a = true).
  { unfold all_digit in Hd. simpl in Hd. apply andb_true_iff in Hd. apply Hd. }
  unfold py_int.
  assert (E : lstrip_spaces (String a d ++ nl) = (String a d ++ nl)%string).
  { simpl. rewrite (digit_not_space a Ha). reflexivity. }
  rewrite E, (rstrip_spaces_line_end _ nl Hd Hnl), (digit_not_sign a Ha).
  destruct (span_digits_all (String a d) 0 O Hd) as [v Hv]. rewrite Hv.
  reflexivity.
Qed.

(** A width alone, and a width with a height. *)
Lemma parse_image_size_width (d nl : string) :
  all_digit d = true -> d <> EmptyString -> line_end nl ->
  _parse_image_size (Some (d ++ nl)%string) = Ok (Some (fst (fst (span_digits d 0 O)), 0)).
Proof.
  intros Hd Hne Hnl. unfold _parse_image_size.
  destruct (d ++ nl)%string as [|a s] eqn:E; [destruct d; [contradiction | discriminate]|].
  rewrite <- E. rewrite (re_split_digits d nl Hd), (re_split_line_end nl Hnl). cbn [hd tl map_result].
  rewrite (py_int_line d nl Hd Hne Hnl). reflexivity.
Qed.

Lemma parse_image_size_both (d1 d2 nl : string) (a : ascii) :
  all_digit d1 = true -> d1 <> EmptyString ->
  is_size_separator a = true ->
  all_digit d2 = true -> d2 <> EmptyString -> line_end nl ->
  _parse_image_size (Some (d1 ++ String a (d2 ++ nl))%string)
  = Ok (Some (fst (fst (span_digits d1 0 O)), fst (fst (span_digits d2 0 O)))).
Proof.
  intros Hd1 Hne1 Ha Hd2 Hne2 Hnl. unfold _parse_image_size.
  destruct (d1 ++ String a (d2 ++ nl))%string as [|b s] eqn:E;
    [destruct d1; [contradiction | discriminate]|].
  rewrite <- E. rewrite (re_split_digits d1 _ Hd1).
  cbn [re_split]. rewrite Ha. cbn [hd tl].
  rewrite (re_split_digits d2 nl Hd2), (re_split_line_end nl Hnl). cbn [hd tl map_result].
  rewrite append_nil_r.
  rewrite (py_int_value d1 Hd1 Hne1). cbn [bind].
  rewrite (py_int_line d2 nl Hd2 Hne2 Hnl). reflexivity.
Qed.

Lemma nonempty_true (s : string) : nonempty s = true -> s <> EmptyString.
Proof. destruct s; [discriminate | discriminate]. Qed.

(** X13.  Every size string that the command line accepts, of at most
    4300 characters, is parsed by [_parse_image_size] without an exception
    into a width and a height that are not negative; and the height is 0
    when the string has no separator. *)
Theorem accepted_size_is_parsed (v : string) :
  ImageSizeType v = true ->
  (String.length v <= int_max_str_digits)%nat ->
  exists w h,
    _parse_image_size (Some v) = Ok (Some (w, h))
    /\ 0 <= w /\ 0 <= h
    /\ (has_char "x" v = false -> has_char "," v = false -> h = 0).
Proof.
  intros Hv _. unfold ImageSizeType in Hv.
  destruct (chomp_cases v) as [nl [Hnl Ev]].
  destruct (span_spec is_digit (chomp v)) as [Eb Hd].
  destruct (span is_digit (chomp v)) as [width rest]. cbn [fst snd] in Eb, Hd.
  apply andb_true_iff in Hv. destruct Hv as [Hv Hrest].
  apply andb_true_iff in Hv. destruct Hv as [_ Hwidth].
  apply nonempty_true in Hwidth.
  destruct rest as [|a height].
  - rewrite append_nil_r in Eb. rewrite Ev, Eb.
    eexists _, 0. split; [apply parse_image_size_width; assumption|].
    split; [apply span_digits_nonneg; lia|]. split; [lia | reflexivity].
  - apply andb_true_iff in Hrest. destruct Hrest as [Hrest Hh].
    apply andb_true_iff in Hrest. destruct Hrest as [Hrest Hhne].
    apply andb_true_iff in Hrest. destruct Hrest as [Ha _].
    apply nonempty_true in Hhne.
    assert (E : v = (width ++ String a (height ++ nl))%string).
    { rewrite Ev, Eb, append_assoc. reflexivity. }
    rewrite E. eexists _, _.
    split; [apply parse_image_size_both; assumption|].
    split; [apply span_digits_nonneg; lia|].
    split; [apply span_digits_nonneg; lia|].
    intros Hx Hc. exfalso. rewrite !has_char_app in Hx, Hc.
    apply orb_false_iff in Hx, Hc. destruct Hx as [_ Hx], Hc as [_ Hc].
    simpl in Hx, Hc. apply orb_false_iff in Hx, Hc.
    destruct Hx as [Hx _], Hc as [Hc _].
    unfold is_size_separator in Ha. rewrite Hx, Hc in Ha. discriminate Ha.
Qed.

Lemma accepted_size_is_parsed_witness :
  exists w h,
    _parse_image_size (Some "640x480") = Ok (Some (w, h))
    /\ 0 <= w /\ 0 <= h
    /\ (has_char "x" "640x480" = false -> has_char "," "640x480" = false -> h = 0).
Proof.
  apply accepted_size_is_parsed; [reflexivity | apply Nat.leb_le; reflexivity].
Defined.

(** ** Sizes in decimal *)

Lemma chomp_digits (s : string) :
  forall_chars (fun a => is_digit a || is_size_separator a) s = true -> chomp s = s.
Proof.
  induction s as [|a s IH]; [reflexivity|]. simpl. intros Hs.
  apply andb_true_iff in Hs. destruct Hs as [Ha Hs].
  destruct s as [|b s].
  - destruct (Ascii.eqb_spec a (ascii_of_nat 10)) as [->|_]; [discriminate Ha | reflexivity].
  - rewrite (IH Hs). reflexivity.
Qed.

Lemma forall_chars_weaken (p q : ascii -> bool) (s : string) :
  (forall a, p a = true -> q a = true) ->
  forall_chars p s = true -> forall_chars q s = true.
Proof.
  intros Hpq. induction s as [|a s IH]; [reflexivity|]. simpl. intros Hs.
  apply andb_true_iff in Hs. destruct Hs as [Ha Hs]. rewrite (Hpq a Ha), (IH Hs). reflexivity.
Qed.

Lemma span_digits_prefix (d t : string) :
  all_digit d = true -> head_no_digit t = true -> span is_digit (d ++ t) = (d, t).
Proof.
  intros Hd Ht. induction d as [|a d IH].
  - destruct t as [|b t]; [reflexivity|]. simpl in *.
    apply negb_true_iff in Ht. rewrite Ht. reflexivity.
  - unfold all_digit in Hd. simpl in Hd. apply andb_true_iff in Hd. destruct Hd as [Ha Hd].
    simpl. rewrite Ha, (IH Hd). reflexivity.
Qed.

(** The numeral of a number other than 0 is not the numeral 0. *)
Lemma string_of_nat_zero (n : nat) : string_of_nat n = "0" -> n = O.
Proof.
  intros E. pose proof (py_int_string_of_nat n) as Hn. rewrite E in Hn.
  assert (E0 : py_int "0" = Ok 0) by reflexivity.
  rewrite E0 in Hn. injection Hn as Hn. lia.
Qed.

(** The size string of a width and a height, with the separator [a]. *)
Lemma ImageSizeType_both (w h : nat) (a : ascii) :
  (0 < w)%nat -> (0 < h)%nat -> is_size_separator a = true ->
  ImageSizeType (string_of_nat w ++ String a (string_of_nat h)) = true.
Proof.
  intros Hw Hh Ha.
  destruct (string_of_nat_digits w) as [Hdw Hnw].
  destruct (string_of_nat_digits h) as [Hdh Hnh].
  assert (Hsep : is_digit a = false).
  { destruct (is_digit a) eqn:E; [|reflexivity].
    rewrite (digit_not_separator a E) in Ha. discriminate Ha. }
  unfold ImageSizeType.
  rewrite chomp_digits.
  2:{ rewrite forall_chars_app. simpl. rewrite Ha, orb_true_r. cbn [andb].
      rewrite (forall_chars_weaken is_digit _ _ (fun c Hc => orb_true_intro _ _ (or_introl Hc)) Hdw).
      apply (forall_chars_weaken is_digit _ _ (fun c Hc => orb_true_intro _ _ (or_introl Hc)) Hdh). }
  rewrite span_digits_prefix by (try assumption; simpl; rewrite Hsep; reflexivity).
  rewrite Ha. unfold all_digit in Hdh. rewrite Hdh.
  destruct (string_of_nat w) as [|c s] eqn:Ew; [contradiction|].
  destruct (string_of_nat h) as [|c' s'] eqn:Eh; [contradiction|].
  assert (H0 : String.eqb (String c' s') "0" = false).
  { apply String.eqb_neq. intros E. rewrite <- Eh in E. apply string_of_nat_zero in E. lia. }
  rewrite H0.
  assert (Hb : String.eqb (String c s ++ String a (String c' s')) "0" = false).
  { apply String.eqb_neq. destruct s; discriminate. }
  rewrite Hb. cbn [negb andb nonempty String.eqb].
  assert (Hlead : match (String c s ++ String a (String c' s'))%string with
                  | String "0" (String a' _) => is_size_separator a'
                  | _ => false
                  end = false).
  { destruct s as [|b s].
    - simpl. destruct (Ascii.eqb_spec c "0") as [->|Hc].
      + exfalso. rewrite <- Ew in *. apply string_of_nat_zero in Ew. lia.
      + destruct c as [[] [] [] [] [] [] [] []]; try reflexivity. contradiction Hc. reflexivity.
    - simpl. assert (Hbd : is_digit b = true).
      { unfold all_digit in Hdw. simpl in Hdw.
        apply andb_true_iff in Hdw. destruct Hdw as [_ Hdw].
        apply andb_true_iff in Hdw. apply Hdw. }
      rewrite (digit_not_separator b Hbd).
      destruct c as [[] [] [] [] [] [] [] []]; reflexivity. }
  rewrite Hlead. reflexivity.
Qed.

Lemma ImageSizeType_width (w : nat) :
  (0 < w)%nat -> ImageSizeType (string_of_nat w) = true.
Proof.
  intros Hw. destruct (string_of_nat_digits w) as [Hdw Hnw].
  unfold ImageSizeType.
  rewrite chomp_digits
    by (apply (forall_chars_weaken is_digit _ _
                 (fun c Hc => orb_true_intro _ _ (or_introl Hc)) Hdw)).
  rewrite <- (append_nil_r (string_of_nat w)) at 1.
  rewrite span_digits_prefix by (try assumption; reflexivity).
  destruct (string_of_nat w) as [|c s] eqn:Ew; [contradiction|].
  assert (H0 : String.eqb (String c s) "0" = false).
  { apply String.eqb_neq. intros E. rewrite <- Ew in E. apply string_of_nat_zero in E. lia. }
  rewrite H0. cbn [negb andb nonempty String.eqb].
  destruct s as [|b s].
  - destruct c as [[] [] [] [] [] [] [] []]; reflexivity.
  - assert (Hbd : is_digit b = true).
    { unfold all_digit in Hdw. simpl in Hdw.
      apply andb_true_iff in Hdw. destruct Hdw as [_ Hdw].
      apply andb_true_iff in Hdw. apply Hdw. }
    rewrite (digit_not_separator b Hbd).
    destruct c as [[] [] [] [] [] [] [] []]; reflexivity.
Qed.

(** X16.  For every width and height greater than 0, written in
    decimal with at most 4300 digits: the width alone, the width and the height around an x, and
    the two around a comma are size strings that the command line accepts,
    and [_parse_image_size] reads them back as the width with the height
    0, and as the width with the height. *)
Theorem size_strings_round_trip (w h : nat) :
  (0 < w)%nat -> (0 < h)%nat ->
  (String.length (string_of_nat w) <= int_max_str_digits)%nat ->
  (String.length (string_of_nat h) <= int_max_str_digits)%nat ->
  let W := string_of_nat w in
  let H := string_of_nat h in
  (ImageSizeType W = true
   /\ _parse_image_size (Some W) = Ok (Some (Z.of_nat w, 0)))
  /\ (ImageSizeType (W ++ "x" ++ H) = true
      /\ _parse_image_size (Some (W ++ "x" ++ H)%string) = Ok (Some (Z.of_nat w, Z.of_nat h)))
  /\ (ImageSizeType (W ++ "," ++ H) = true
      /\ _parse_image_size (Some (W ++ "," ++ H)%string) = Ok (Some (Z.of_nat w, Z.of_nat h))).
Proof.
  intros Hw Hh _ _ W H.
  destruct (string_of_nat_digits w) as [Hdw Hnw].
  destruct (string_of_nat_digits h) as [Hdh Hnh].
  pose proof (py_int_string_of_nat w) as Pw. rewrite (py_int_value _ Hdw Hnw) in Pw.
  pose proof (py_int_string_of_nat h) as Ph. rewrite (py_int_value _ Hdh Hnh) in Ph.
  injection Pw as Pw. injection Ph as Ph.
  assert (Hboth : forall a, is_size_separator a = true ->
            _parse_image_size (Some (W ++ String a H)%string)
            = Ok (Some (Z.of_nat w, Z.of_nat h))).
  { intros a Ha. rewrite <- (append_nil_r H).
    unfold W, H.
    rewrite (parse_image_size_both _ _ EmptyString a Hdw Hnw Ha Hdh Hnh (or_introl eq_refl)).
    rewrite Pw, Ph. reflexivity. }
  split; [split|split; split].
  - apply ImageSizeType_width, Hw.
  - rewrite <- (append_nil_r W). unfold W.
    rewrite (parse_image_size_width _ EmptyString Hdw Hnw (or_introl eq_refl)), Pw.
    reflexivity.
  - apply (ImageSizeType_both w h "x" Hw Hh eq_refl).
  - apply (Hboth "x"%char eq_refl).
  - apply (ImageSizeType_both w h "," Hw Hh eq_refl).
  - apply (Hboth ","%char eq_refl).
Qed.

Lemma size_strings_round_trip_witness :
  (ImageSizeType "1920" = true
   /\ _parse_image_size (Some "1920") = Ok (Some (1920, 0)))
  /\ (ImageSizeType "1920x1080" = true
      /\ _parse_image_size (Some "1920x1080") = Ok (Some (1920, 1080)))
  /\ (ImageSizeType "1920,1080" = true
      /\ _parse_image_size (Some "1920,1080") = Ok (Some (1920, 1080))).
Proof.
  exact (size_strings_round_trip 1920 1080
           ltac:(apply Nat.ltb_lt; reflexivity) ltac:(apply Nat.ltb_lt; reflexivity)
           ltac:(apply Nat.leb_le; reflexivity) ltac:(apply Nat.leb_le; reflexivity)).
Defined.

(** ** The timestamps of all the topics *)

Section Restart.

Variable fs : FileSystem.
Variable self : Img2BagConverter Q.
Hypothesis rate_positive : (0 < rate self)%Q.
Hypothesis start_nonneg : (0 <= start_timestamp self)%Q.


End Restart.



(** ** Topics and frame identifiers *)

(** X14.  Whatever the numbers are, the conversion of a directory
    depends on its topic only through what is left of the topic once its
    leading slashes are removed: two topics that differ in their leading
    slashes only give the same frame identifier, the same channel names
    and the same run.  The name of the image channel is that rest after
    exactly one slash. *)
Theorem leading_slashes_of_topic (F : Type) (HF : PyFloat F) (fs : FileSystem)
    (self : Img2BagConverter F) (image_dir t1 t2 : string) :
  lstrip slash t1 = lstrip slash t2 ->
  get_frame_id_from_topic t1 = get_frame_id_from_topic t2
  /\ image_topic_name t1 = image_topic_name t2
  /\ image_topic_name t1 = String slash (lstrip slash t1)
  /\ startswith slash (lstrip slash t1) = false
  /\ _convert_image_to_topic fs self image_dir t1
     = _convert_image_to_topic fs self image_dir t2.
Proof.
  intros Hl.
  assert (Hf : get_frame_id_from_topic t1 = get_frame_id_from_topic t2).
  { unfold get_frame_id_from_topic, strip. rewrite Hl. reflexivity. }
  assert (Hi : image_topic_name t1 = image_topic_name t2).
  { unfold image_topic_name. rewrite Hl. reflexivity. }
  split; [exact Hf|]. split; [exact Hi|]. split; [reflexivity|]. split.
  - clear. induction t1 as [|a t IH]; [reflexivity|]. simpl.
    destruct (Ascii.eqb a slash) eqn:Ha; [exact IH|]. simpl. exact Ha.
  - unfold _convert_image_to_topic, _register_topics. rewrite Hf, Hi. reflexivity.
Qed.

Lemma leading_slashes_of_topic_witness :
  _convert_image_to_topic sample_fs (sample_converter "camera_info") "/data/left" "//cam/left"
  = _convert_image_to_topic sample_fs (sample_converter "camera_info") "/data/left" "cam/left".
Proof.
  exact (proj2 (proj2 (proj2 (proj2
    (leading_slashes_of_topic Q Exact.float sample_fs (sample_converter "camera_info")
       "/data/left" "//cam/left" "cam/left" eq_refl))))).
Defined.

(** X15.  The frame identifier of every topic is a relative path in
    normal form: it is not empty, it does not begin with a slash, and it
    has no empty segment, that is no leading, trailing or doubled slash;
    it is a single dot, or none of its segments is a dot. *)
Theorem frame_id_is_relative (topic : string) :
  get_frame_id_from_topic topic <> EmptyString
  /\ startswith slash (get_frame_id_from_topic topic) = false
  /\ no_empty_segment (get_frame_id_from_topic topic)
  /\ (get_frame_id_from_topic topic = "." \/ plain_path (get_frame_id_from_topic topic)).
Proof.
  assert (Hn : no_empty_segment (get_frame_id_from_topic topic)).
  { destruct (frame_id_plain topic) as [-> | Hp].
    - repeat constructor. discriminate.
    - apply plain_no_empty, Hp. }
  split.
  - intros E. rewrite E in Hn. inversion Hn as [|x l Hx _]. apply Hx. reflexivity.
  - split; [apply plain_path_not_rooted, Hn|]. split; [exact Hn|]. apply frame_id_plain.
Qed.
